(** * wenidi_addr::attendance_system

    A shallow embedding of the Move module [sources/attendence.move] and the
    properties of its attendance ledger.

    Modelling choices, all read off the source:
    - [address], [u8] and [u64] values are natural numbers ([N]); the module
      performs no arithmetic on them besides the loop counter of
      [mark_checkout], which stays below a vector length;
    - a [SmartTable<K, V>] is a finite map [gmap K V]; [smart_table::add]
      aborts on a key that is present, [smart_table::borrow] and
      [smart_table::borrow_mut] abort on a key that is absent;
    - a [vector<T>] is a [list T], [vector::push_back] appends at the end;
    - an [EventHandle<T>] is the list of the events emitted through it,
      oldest first; [account::new_event_handle] gives the empty list (the
      GUID counter it bumps lives in the signer's account, outside this
      module);
    - [timestamp::now_seconds()] is constant during one transaction and is
      the parameter [now] of every entry function;
    - the resources of type [AttendanceSystem] in global storage are a map
      from the address they are published under; a transaction that aborts
      leaves global storage as it was (the Move VM discards its writes). The
      functions that work on the borrowed ledger nevertheless return the
      ledger as it was at the abort, so that "every check precedes every
      write" is a statement about the code and not about the VM. *)

From stdpp Require Import gmap strings list fin_maps.
From Stdlib Require Import NArith.

Local Open Scope N_scope.

Abbreviation Address := N (only parsing).
Abbreviation u8 := N (only parsing).
Abbreviation u64 := N (only parsing).

(** ** Constants *)

Definition E_NOT_AUTHORIZED : u64 := 1.
Definition E_USER_NOT_FOUND : u64 := 2.
Definition E_ALREADY_REGISTERED : u64 := 3.
Definition E_INVALID_USER_TYPE : u64 := 4.
Definition E_ATTENDANCE_ALREADY_MARKED : u64 := 5.

Definition USER_TYPE_STUDENT : u8 := 1.
Definition USER_TYPE_TEACHER : u8 := 2.
Definition USER_TYPE_ADMIN : u8 := 3.

(** ** Data *)

Record User := mkUser {
  address : Address;
  name : string;
  user_type : u8;
  registration_time : u64;
}.

Record AttendanceRecord := mkAttendanceRecord {
  user_address : Address;
  date : string;
  check_in_time : u64;
  check_out_time : u64;
  is_present : bool;
  marked_by : Address;
}.

Record UserRegistrationEvent := mkUserRegistrationEvent {
  reg_user_address : Address;
  reg_name : string;
  reg_user_type : u8;
  reg_timestamp : u64;
}.

Record AttendanceMarkedEvent := mkAttendanceMarkedEvent {
  att_user_address : Address;
  att_date : string;
  att_check_in_time : u64;
  att_is_present : bool;
  att_marked_by : Address;
  att_timestamp : u64;
}.

Record AttendanceSystem := mkAttendanceSystem {
  admin : Address;
  users : gmap N User;
  attendance_records : gmap string (list AttendanceRecord);
  daily_attendance : gmap N (gmap string AttendanceRecord);
  user_registration_events : list UserRegistrationEvent;
  attendance_marked_events : list AttendanceMarkedEvent;
}.

(** Field updates ([s.f = v] through a mutable reference). *)

Definition set_users (v : gmap N User) (s : AttendanceSystem) : AttendanceSystem :=
  mkAttendanceSystem (admin s) v (attendance_records s) (daily_attendance s)
    (user_registration_events s) (attendance_marked_events s).

Definition set_attendance_records (v : gmap string (list AttendanceRecord))
    (s : AttendanceSystem) : AttendanceSystem :=
  mkAttendanceSystem (admin s) (users s) v (daily_attendance s)
    (user_registration_events s) (attendance_marked_events s).

Definition set_daily_attendance (v : gmap N (gmap string AttendanceRecord))
    (s : AttendanceSystem) : AttendanceSystem :=
  mkAttendanceSystem (admin s) (users s) (attendance_records s) v
    (user_registration_events s) (attendance_marked_events s).

Definition set_user_registration_events (v : list UserRegistrationEvent)
    (s : AttendanceSystem) : AttendanceSystem :=
  mkAttendanceSystem (admin s) (users s) (attendance_records s) (daily_attendance s)
    v (attendance_marked_events s).

Definition set_attendance_marked_events (v : list AttendanceMarkedEvent)
    (s : AttendanceSystem) : AttendanceSystem :=
  mkAttendanceSystem (admin s) (users s) (attendance_records s) (daily_attendance s)
    (user_registration_events s) v.

Definition set_check_out_time (t : u64) (r : AttendanceRecord) : AttendanceRecord :=
  mkAttendanceRecord (user_address r) (date r) (check_in_time r) t
    (is_present r) (marked_by r).

(** ** Aborts *)

(** [Code c] is an [assert!] of this module failing with abort code [c].
    The other constructors are the aborts raised outside the module: by
    [aptos_std::smart_table] ([ENOT_FOUND], [EALREADY_EXIST]), by
    [std::vector] ([EINDEX_OUT_OF_BOUNDS]) and by the VM on [move_to]
    ([RESOURCE_ALREADY_EXISTS]) and [borrow_global] ([MISSING_DATA]). *)
Inductive abort :=
| Code (c : u64)
| ENOT_FOUND
| EALREADY_EXIST
| EINDEX_OUT_OF_BOUNDS
| RESOURCE_ALREADY_EXISTS
| MISSING_DATA.

#[global] Instance abort_eq_dec : EqDecision abort.
Proof. solve_decision. Defined.

(** ** smart_table *)

Module smart_table.
Section ops.
Context {K : Type} `{Countable K} {V : Type}.

Definition new : gmap K V := ∅.

Definition contains (t : gmap K V) (k : K) : bool :=
  match t !! k with Some _ => true | None => false end.

Definition add (t : gmap K V) (k : K) (v : V) : abort + gmap K V :=
  if contains t k then inl EALREADY_EXIST else inr (<[k := v]> t).

Definition borrow (t : gmap K V) (k : K) : abort + V :=
  match t !! k with Some v => inr v | None => inl ENOT_FOUND end.
End ops.
End smart_table.

(** ** The monad of code that runs on the borrowed ledger *)

Inductive outcome (A : Type) :=
| Done (a : A) (s : AttendanceSystem)
| Aborted (e : abort) (s : AttendanceSystem).
Arguments Done {A} a s.
Arguments Aborted {A} e s.

Definition M (A : Type) : Type := AttendanceSystem → outcome A.

#[global] Instance M_ret : MRet M := λ A (a : A) s, Done a s.

#[global] Instance M_bind : MBind M := λ A B (k : A → M B) (m : M A) s,
  match m s with
  | Done a s' => k a s'
  | Aborted e s' => Aborted e s'
  end.

Definition raise {A} (e : abort) : M A := λ s, Aborted e s.

Definition gets {A} (f : AttendanceSystem → A) : M A := λ s, Done (f s) s.

Definition modify (f : AttendanceSystem → AttendanceSystem) : M unit :=
  λ s, Done tt (f s).

(** [assert!(b, code)] *)
Definition assert (b : bool) (code : u64) : M unit :=
  if b then mret tt else raise (Code code).

(** A library call that may abort. *)
Definition call {A} (r : abort + A) : M A :=
  match r with inl e => raise e | inr a => mret a end.

(** ** Helpers of the module *)

Definition is_admin (user_addr : Address) (users : gmap N User) : bool :=
  if smart_table.contains users user_addr then
    match users !! user_addr with
    | Some user => user_type user =? USER_TYPE_ADMIN
    | None => false
    end
  else false.

Definition is_teacher (user_addr : Address) (users : gmap N User) : bool :=
  if smart_table.contains users user_addr then
    match users !! user_addr with
    | Some user => user_type user =? USER_TYPE_TEACHER
    | None => false
    end
  else false.

(** ** Entry functions, on the ledger borrowed from [@wenidi_addr] *)

Definition register_user (user_addr : Address) (name : string) (user_type : u8)
    (now : u64) : M unit :=
  us ← gets users;
  assert ((user_type =? USER_TYPE_STUDENT) || (user_type =? USER_TYPE_TEACHER))
    E_INVALID_USER_TYPE;;
  assert (negb (smart_table.contains us user_addr)) E_ALREADY_REGISTERED;;
  let user := mkUser user_addr name user_type now in
  us' ← call (smart_table.add us user_addr user);
  modify (set_users us');;
  da ← gets daily_attendance;
  da' ← call (smart_table.add da user_addr smart_table.new);
  modify (set_daily_attendance da');;
  evs ← gets user_registration_events;
  modify (set_user_registration_events
            (evs ++ [mkUserRegistrationEvent user_addr name user_type now])).

Definition mark_attendance (marker_addr user_address : Address) (date : string)
    (is_present : bool) (now : u64) : M unit :=
  us ← gets users;
  assert ((marker_addr =? user_address) || is_admin marker_addr us
          || is_teacher marker_addr us) E_NOT_AUTHORIZED;;
  assert (smart_table.contains us user_address) E_USER_NOT_FOUND;;
  let current_time := now in
  da ← gets daily_attendance;
  user_attendance ← call (smart_table.borrow da user_address);
  assert (negb (smart_table.contains user_attendance date))
    E_ATTENDANCE_ALREADY_MARKED;;
  let attendance_record :=
    mkAttendanceRecord user_address date current_time 0 is_present marker_addr in
  user_attendance' ← call (smart_table.add user_attendance date attendance_record);
  modify (set_daily_attendance (<[user_address := user_attendance']> da));;
  ar ← gets attendance_records;
  (if negb (smart_table.contains ar date) then
     ar' ← call (smart_table.add ar date []);
     modify (set_attendance_records ar')
   else mret tt);;
  ar ← gets attendance_records;
  daily_records ← call (smart_table.borrow ar date);
  modify (set_attendance_records (<[date := daily_records ++ [attendance_record]]> ar));;
  evs ← gets attendance_marked_events;
  modify (set_attendance_marked_events
            (evs ++ [mkAttendanceMarkedEvent user_address date current_time
                       is_present marker_addr current_time])).

(** The [while (i < len)] loop of [mark_checkout] over the vector borrowed
    from [attendance_records]. [fuel] bounds the remaining iterations; the
    caller passes [len - i]. *)
Fixpoint checkout_loop (fuel : nat) (user_addr : Address) (now : u64)
    (len i : nat) (daily_records : list AttendanceRecord)
    : abort + list AttendanceRecord :=
  match fuel with
  | O => inr daily_records
  | S fuel' =>
    if bool_decide (i < len)%nat then
      match daily_records !! i with
      | None => inl EINDEX_OUT_OF_BOUNDS
      | Some record =>
        if user_address record =? user_addr then
          inr (<[i := set_check_out_time now record]> daily_records)
        else checkout_loop fuel' user_addr now len (i + 1)%nat daily_records
      end
    else inr daily_records
  end.

Definition mark_checkout (user_addr : Address) (date : string) (now : u64) : M unit :=
  da ← gets daily_attendance;
  user_attendance ← call (smart_table.borrow da user_addr);
  assert (smart_table.contains user_attendance date) E_USER_NOT_FOUND;;
  attendance_record ← call (smart_table.borrow user_attendance date);
  modify (set_daily_attendance
            (<[user_addr := <[date := set_check_out_time now attendance_record]>
                              user_attendance]> da));;
  ar ← gets attendance_records;
  daily_records ← call (smart_table.borrow ar date);
  let len := length daily_records in
  daily_records' ← call (checkout_loop len user_addr now len 0%nat daily_records);
  modify (set_attendance_records (<[date := daily_records']> ar)).

(** ** View functions, on the ledger borrowed from [@wenidi_addr] *)

Module view.
Definition get_user_info (user_address : Address) (s : AttendanceSystem)
    : abort + User :=
  if smart_table.contains (users s) user_address then
    smart_table.borrow (users s) user_address
  else inl (Code E_USER_NOT_FOUND).

Definition get_user_attendance (user_address : Address) (date : string)
    (s : AttendanceSystem) : abort + AttendanceRecord :=
  match smart_table.borrow (daily_attendance s) user_address with
  | inl e => inl e
  | inr user_attendance => smart_table.borrow user_attendance date
  end.

Definition get_daily_attendance (date : string) (s : AttendanceSystem)
    : abort + list AttendanceRecord :=
  if smart_table.contains (attendance_records s) date then
    smart_table.borrow (attendance_records s) date
  else inr [].

Definition is_user_registered (user_address : Address) (s : AttendanceSystem)
    : abort + bool :=
  inr (smart_table.contains (users s) user_address).

Definition get_admin_address (s : AttendanceSystem) : abort + Address :=
  inr (admin s).

Definition get_all_attendance_by_date (date : string) (caller : Address)
    (s : AttendanceSystem) : abort + list AttendanceRecord :=
  if is_admin caller (users s) then
    if smart_table.contains (attendance_records s) date then
      smart_table.borrow (attendance_records s) date
    else inr []
  else inl (Code E_NOT_AUTHORIZED).
End view.

(** ** Global storage and transactions *)

(** The resources of type [AttendanceSystem], by the address that holds
    them. *)
Abbreviation storage := (gmap N AttendanceSystem) (only parsing).

Definition move_to (st : storage) (a : Address) (s : AttendanceSystem)
    : abort + storage :=
  match st !! a with
  | Some _ => inl RESOURCE_ALREADY_EXISTS
  | None => inr (<[a := s]> st)
  end.

(** [initialize] builds the resource in a local and publishes it under the
    signer's address. *)
Definition initialize (admin_addr : Address) (now : u64) (st : storage)
    : abort + storage :=
  let attendance_system :=
    mkAttendanceSystem admin_addr smart_table.new smart_table.new smart_table.new
      [] [] in
  let admin_user := mkUser admin_addr "System Admin" USER_TYPE_ADMIN now in
  match smart_table.add (users attendance_system) admin_addr admin_user with
  | inl e => inl e
  | inr us =>
    let attendance_system := set_users us attendance_system in
    match smart_table.add (daily_attendance attendance_system) admin_addr
            smart_table.new with
    | inl e => inl e
    | inr da =>
      let attendance_system := set_daily_attendance da attendance_system in
      move_to st admin_addr attendance_system
    end
  end.

Section deployment.
(** The named address the module is published under. *)
Variable wenidi_addr : Address.

(** [borrow_global_mut<AttendanceSystem>(@wenidi_addr)] around the body of
    an entry function; the writes reach storage only when the body
    returns. *)
Definition borrow_global_mut (body : M unit) (st : storage) : abort + storage :=
  match st !! wenidi_addr with
  | None => inl MISSING_DATA
  | Some s =>
    match body s with
    | Done _ s' => inr (<[wenidi_addr := s']> st)
    | Aborted e _ => inl e
    end
  end.

(** [borrow_global<AttendanceSystem>(@wenidi_addr)] around a view. *)
Definition borrow_global {A} (f : AttendanceSystem → abort + A) (st : storage)
    : abort + A :=
  match st !! wenidi_addr with
  | None => inl MISSING_DATA
  | Some s => f s
  end.

Definition get_user_info (user_address : Address) :=
  borrow_global (view.get_user_info user_address).
Definition get_user_attendance (user_address : Address) (date : string) :=
  borrow_global (view.get_user_attendance user_address date).
Definition get_daily_attendance (date : string) :=
  borrow_global (view.get_daily_attendance date).
Definition is_user_registered (user_address : Address) :=
  borrow_global (view.is_user_registered user_address).
Definition get_admin_address :=
  borrow_global view.get_admin_address.
Definition get_all_attendance_by_date (date : string) (caller : Address) :=
  borrow_global (view.get_all_attendance_by_date date caller).

(** The entry functions as transactions; the first argument of each is the
    address of its signer. *)
Inductive transaction :=
| Initialize (admin : Address)
| RegisterUser (account : Address) (name : string) (user_type : u8)
| MarkAttendance (marker user_address : Address) (date : string) (is_present : bool)
| MarkCheckout (user : Address) (date : string).

Definition run (now : u64) (tx : transaction) (st : storage) : abort + storage :=
  match tx with
  | Initialize a => initialize a now st
  | RegisterUser a n t => borrow_global_mut (register_user a n t now) st
  | MarkAttendance m u d p => borrow_global_mut (mark_attendance m u d p now) st
  | MarkCheckout u d => borrow_global_mut (mark_checkout u d now) st
  end.

(** What a transaction leaves in storage: its writes when it returns,
    nothing when it aborts. *)
Definition execute (now : u64) (tx : transaction) (st : storage) : storage :=
  match run now tx st with
  | inr st' => st'
  | inl _ => st
  end.

(** The storages that transactions can produce from the empty one. *)
Inductive reachable : storage → Prop :=
| reachable_empty : reachable ∅
| reachable_step st now tx :
    reachable st → reachable (execute now tx st).
End deployment.

(** ** The two attendance indices and the invariants of a ledger *)

(** The record kept for account [u] on date [d] in the per-account index. *)
Definition by_account (s : AttendanceSystem) (u : Address) (d : string)
    : option AttendanceRecord :=
  daily_attendance s !! u ≫= λ user_attendance, user_attendance !! d.

(** [r] is an entry of the per-date sequence of date [d]. *)
Definition by_date (s : AttendanceSystem) (d : string) (r : AttendanceRecord) : Prop :=
  ∃ daily_records, attendance_records s !! d = Some daily_records ∧ r ∈ daily_records.

(** The first entry of the per-date sequence of [d] whose subject is [u]:
    the entry the scan of [mark_checkout] stops at. *)
Definition first_by_date (s : AttendanceSystem) (u : Address) (d : string)
    : option AttendanceRecord :=
  attendance_records s !! d ≫= λ daily_records,
    snd <$> list_find (λ r, user_address r = u) daily_records.

(** Both indices hold the same records, each filed under its own subject
    and date, and a per-date sequence holds at most one record per
    subject. *)
Record dual_write_consistent (s : AttendanceSystem) : Prop := {
  same_records : ∀ u d r,
    by_account s u d = Some r ↔ user_address r = u ∧ by_date s d r;
  filed_by_date : ∀ d r, by_date s d r → date r = d;
  one_per_subject : ∀ d daily_records,
    attendance_records s !! d = Some daily_records →
    NoDup (user_address <$> daily_records);
}.

(** The account store: it has the keys of the per-account index, files
    every account under its own address, and its only Admin is [admin]. *)
Record accounts_wf (s : AttendanceSystem) : Prop := {
  same_keys : dom (users s) = dom (daily_attendance s);
  filed_by_address : ∀ a u, users s !! a = Some u → address u = a;
  only_admin : ∀ a u, users s !! a = Some u →
    (user_type u = USER_TYPE_ADMIN ↔ a = admin s);
  admin_registered : is_Some (users s !! admin s);
}.

Record ledger_inv (s : AttendanceSystem) : Prop := {
  inv_accounts : accounts_wf s;
  inv_indices : dual_write_consistent s;
}.

(** Every published ledger satisfies the invariants and is administered by
    the address it is published under. *)
Definition storage_inv (st : storage) : Prop :=
  ∀ a s, st !! a = Some s → admin s = a ∧ ledger_inv s.

(** The caller passes the authorization check of [mark_attendance]. *)
Definition may_mark (s : AttendanceSystem) (marker_addr user_address : Address) : bool :=
  (marker_addr =? user_address) || is_admin marker_addr (users s)
  || is_teacher marker_addr (users s).

(** The record [mark_attendance] constructs. *)
Definition new_record (marker_addr user_address : Address) (date : string)
    (is_present : bool) (now : u64) : AttendanceRecord :=
  mkAttendanceRecord user_address date now 0 is_present marker_addr.

(** The ledger [initialize] publishes. *)
Definition genesis (admin_addr : Address) (now : u64) : AttendanceSystem :=
  mkAttendanceSystem admin_addr
    (<[admin_addr := mkUser admin_addr "System Admin" USER_TYPE_ADMIN now]> ∅)
    ∅ (<[admin_addr := ∅]> ∅) [] [].

(** The ledger after a [register_user] that returns. *)
Definition registered (s : AttendanceSystem) (a : Address) (n : string) (t : u8)
    (now : u64) : AttendanceSystem :=
  set_user_registration_events
    (user_registration_events s ++ [mkUserRegistrationEvent a n t now])
    (set_daily_attendance (<[a := ∅]> (daily_attendance s))
       (set_users (<[a := mkUser a n t now]> (users s)) s)).

(** The ledger after a [mark_attendance] that returns. *)
Definition marked (s : AttendanceSystem) (user_attendance : gmap string AttendanceRecord)
    (r : AttendanceRecord) (now : u64) : AttendanceSystem :=
  set_attendance_marked_events
    (attendance_marked_events s ++
       [mkAttendanceMarkedEvent (user_address r) (date r) now (is_present r)
          (marked_by r) now])
    (set_attendance_records
       (<[date r := default [] (attendance_records s !! date r) ++ [r]]>
          (attendance_records s))
       (set_daily_attendance
          (<[user_address r := <[date r := r]> user_attendance]> (daily_attendance s)) s)).

(** What the scan of [mark_checkout] computes: the first entry whose subject
    is [user_addr] gets the check-out time, the others stay. *)
Fixpoint update_first (user_addr : Address) (now : u64)
    (daily_records : list AttendanceRecord) : list AttendanceRecord :=
  match daily_records with
  | [] => []
  | r :: rest =>
    if user_address r =? user_addr then set_check_out_time now r :: rest
    else r :: update_first user_addr now rest
  end.

(** The ledger after a [mark_checkout] that returns: record [r] of
    [user_attendance] and the per-date sequence [daily_records] get the
    check-out time. *)
Definition checked_out (s : AttendanceSystem) (user_addr : Address) (date : string)
    (user_attendance : gmap string AttendanceRecord) (r : AttendanceRecord)
    (daily_records : list AttendanceRecord) (now : u64) : AttendanceSystem :=
  set_attendance_records
    (<[date := update_first user_addr now daily_records]> (attendance_records s))
    (set_daily_attendance
       (<[user_addr := <[date := set_check_out_time now r]> user_attendance]>
          (daily_attendance s)) s).

(** The administrator stays and no account is removed or changed. *)
Definition same_accounts (s s' : AttendanceSystem) : Prop :=
  admin s' = admin s ∧ users s ⊆ users s'.

(** A run of transactions, each at its own time, oldest first. *)
Definition execute_all (wenidi_addr : Address) (txs : list (u64 * transaction))
    (st : storage) : storage :=
  foldl (λ st' p, execute wenidi_addr p.1 p.2 st') st txs.

(** ** A session on a deployed ledger

    The deployer initializes, a student and a teacher register, the teacher
    marks the student present and the student checks out. *)
Module Scenario.
Definition deployer : Address := 10.
Definition student : Address := 20.
Definition teacher : Address := 30.
Definition stranger : Address := 40.

Definition initialized : storage :=
  execute deployer 100 (Initialize deployer) ∅.
Definition with_student : storage :=
  execute deployer 101 (RegisterUser student "Alice" USER_TYPE_STUDENT) initialized.
Definition with_teacher : storage :=
  execute deployer 102 (RegisterUser teacher "Bob" USER_TYPE_TEACHER) with_student.
Definition marked_day : storage :=
  execute deployer 103 (MarkAttendance teacher student "2024-01-10" true) with_teacher.
Definition checked : storage :=
  execute deployer 104 (MarkCheckout student "2024-01-10") marked_day.

(** The ledger of the deployment in a storage of the session. *)
Definition ledger (st : storage) : AttendanceSystem :=
  default (genesis deployer 0) (st !! deployer).
End Scenario.

(** ** Further invariants of a ledger *)

(** Every account has one of the three roles. *)
Definition roles_wf (s : AttendanceSystem) : Prop :=
  ∀ a u, users s !! a = Some u →
    user_type u = USER_TYPE_STUDENT ∨ user_type u = USER_TYPE_TEACHER
    ∨ user_type u = USER_TYPE_ADMIN.

(** Every record on file was marked by a caller that [mark_attendance]
    still lets through for the record's subject. *)
Definition markers_allowed (s : AttendanceSystem) : Prop :=
  ∀ u d r, by_account s u d = Some r → may_mark s (marked_by r) u = true.

(** Event [e] reports the marking of record [r]. *)
Definition reports (e : AttendanceMarkedEvent) (r : AttendanceRecord) : Prop :=
  att_user_address e = user_address r ∧ att_date e = date r
  ∧ att_check_in_time e = check_in_time r ∧ att_is_present e = is_present r
  ∧ att_marked_by e = marked_by r ∧ att_timestamp e = check_in_time r.

(** The stream of marking events and the records on file: every event
    reports the record filed under its subject and date, every record has
    its event, and no (subject, date) pair is reported twice. *)
Record marked_events_wf (s : AttendanceSystem) : Prop := {
  event_has_record : ∀ e, e ∈ attendance_marked_events s →
    ∃ r, by_account s (att_user_address e) (att_date e) = Some r ∧ reports e r;
  record_has_event : ∀ u d r, by_account s u d = Some r →
    ∃ e, e ∈ attendance_marked_events s ∧ reports e r;
  event_once : NoDup ((λ e, (att_user_address e, att_date e))
                        <$> attendance_marked_events s);
}.

(** The registration event of an account. *)
Definition registration_of (u : User) : UserRegistrationEvent :=
  mkUserRegistrationEvent (address u) (name u) (user_type u) (registration_time u).

(** The stream of registration events and the accounts: the events are the
    registrations of the accounts other than the administrator, one each. *)
Record registration_events_wf (s : AttendanceSystem) : Prop := {
  event_has_account : ∀ e, e ∈ user_registration_events s →
    ∃ u, users s !! reg_user_address e = Some u ∧ e = registration_of u
         ∧ reg_user_address e ≠ admin s;
  account_has_event : ∀ a u, users s !! a = Some u → a ≠ admin s →
    registration_of u ∈ user_registration_events s;
  registered_once : NoDup (reg_user_address <$> user_registration_events s);
  events_count : (length (user_registration_events s) + 1)%nat = size (users s);
}.

(** A later ledger keeps every record of an earlier one, up to its
    check-out time. *)
Definition records_kept (s s' : AttendanceSystem) : Prop :=
  ∀ u d r, by_account s u d = Some r →
    ∃ t, by_account s' u d = Some (set_check_out_time t r).

(** The check-out time transaction [tx], run at [now], leaves on record [r]
    of account [u] and date [d]: only the account's own [mark_checkout] for
    that date touches it. *)
Definition check_out_after (now : u64) (tx : transaction) (u : Address) (d : string)
    (r : AttendanceRecord) : AttendanceRecord :=
  match tx with
  | MarkCheckout u0 d0 =>
    if decide (u0 = u ∧ d0 = d) then set_check_out_time now r else r
  | _ => r
  end.

(** ** The client

    The two object literals of the JavaScript client that translate between
    role names and the [u8] of the module: [userTypeMap] of
    [AptosService.registerUser] and [typeMap] of [loadUserInfo] in the
    wallet context. They are modelled by their own properties, which is all
    the theorems below look up. *)
Module client.
Definition userTypeMap : gmap string N :=
  <["student" := 1]> (<["teacher" := 2]> (<["admin" := 3]> ∅)).

Definition typeMap : gmap N string :=
  <[1 := "student"]> (<[2 := "teacher"]> (<[3 := "admin"]> ∅)).
End client.

(** * Properties *)

(** ** The library calls *)

Lemma contains_true {K} `{Countable K} {V} (t : gmap K V) k :
  smart_table.contains t k = true ↔ is_Some (t !! k).
Proof.
  unfold smart_table.contains. destruct (t !! k); split; intros Hk; eauto.
  - discriminate.
  - by destruct Hk.
Qed.

Lemma contains_false {K} `{Countable K} {V} (t : gmap K V) k :
  smart_table.contains t k = false ↔ t !! k = None.
Proof. unfold smart_table.contains. by destruct (t !! k). Qed.

Lemma lookup_insert_Some_empty {K} `{Countable K} {V} (i j : K) (x y : V) :
  <[i := x]> (∅ : gmap K V) !! j = Some y → i = j ∧ x = y.
Proof.
  rewrite lookup_insert_Some, lookup_empty. by intros [[-> ->]|[_ [=]]].
Qed.

Lemma contains_dom {K} `{Countable K} {V} (t : gmap K V) k :
  smart_table.contains t k = true ↔ k ∈ dom t.
Proof. by rewrite contains_true, elem_of_dom. Qed.

Lemma is_admin_spec a (us : gmap N User) :
  is_admin a us = true ↔ ∃ u, us !! a = Some u ∧ user_type u = USER_TYPE_ADMIN.
Proof.
  unfold is_admin, smart_table.contains. destruct (us !! a) as [u|]; split.
  - intros Hu%N.eqb_eq. eauto.
  - intros (u' & [= <-] & Hu). by apply N.eqb_eq.
  - discriminate.
  - by intros (u' & [=] & _).
Qed.

Lemma is_teacher_spec a (us : gmap N User) :
  is_teacher a us = true ↔ ∃ u, us !! a = Some u ∧ user_type u = USER_TYPE_TEACHER.
Proof.
  unfold is_teacher, smart_table.contains. destruct (us !! a) as [u|]; split.
  - intros Hu%N.eqb_eq. eauto.
  - intros (u' & [= <-] & Hu). by apply N.eqb_eq.
  - discriminate.
  - by intros (u' & [=] & _).
Qed.

(** ** The entry functions, case by case *)

Ltac run_M :=
  unfold mbind, M_bind, mret, M_ret, assert, call, gets, modify, raise; simpl.

Lemma register_user_eq a n t now s :
  register_user a n t now s =
    if negb ((t =? USER_TYPE_STUDENT) || (t =? USER_TYPE_TEACHER)) then
      Aborted (Code E_INVALID_USER_TYPE) s
    else if smart_table.contains (users s) a then
      Aborted (Code E_ALREADY_REGISTERED) s
    else
      let s1 := set_users (<[a := mkUser a n t now]> (users s)) s in
      if smart_table.contains (daily_attendance s) a then Aborted EALREADY_EXIST s1
      else Done tt (registered s a n t now).
Proof.
  unfold register_user, smart_table.add, smart_table.new. run_M.
  destruct ((t =? _) || (t =? _)); simpl; [|done].
  destruct (smart_table.contains (users s) a); simpl; [done|].
  by destruct (smart_table.contains (daily_attendance s) a).
Qed.

Lemma mark_attendance_eq m u d p now s :
  mark_attendance m u d p now s =
    if negb (may_mark s m u) then Aborted (Code E_NOT_AUTHORIZED) s
    else if negb (smart_table.contains (users s) u) then
      Aborted (Code E_USER_NOT_FOUND) s
    else match daily_attendance s !! u with
         | None => Aborted ENOT_FOUND s
         | Some user_attendance =>
           if smart_table.contains user_attendance d then
             Aborted (Code E_ATTENDANCE_ALREADY_MARKED) s
           else Done tt (marked s user_attendance (new_record m u d p now) now)
         end.
Proof.
  unfold mark_attendance, may_mark, smart_table.add, smart_table.borrow. run_M.
  destruct ((m =? u) || _ || _); simpl; [|done].
  destruct (smart_table.contains (users s) u); simpl; [|done].
  destruct (daily_attendance s !! u) as [ua|]; simpl; [|done].
  destruct (smart_table.contains ua d); simpl; [done|].
  unfold marked. simpl.
  destruct (smart_table.contains (attendance_records s) d) eqn:Har; simpl.
  - apply contains_true in Har as [v Hv]. by rewrite Hv.
  - rewrite lookup_insert_eq. simpl.
    apply contains_false in Har. rewrite Har. simpl.
    by rewrite insert_insert_eq.
Qed.

Lemma checkout_loop_from u now post : ∀ fuel pre,
  (length post ≤ fuel)%nat →
  checkout_loop fuel u now (length (pre ++ post)) (length pre) (pre ++ post)
  = inr (pre ++ update_first u now post).
Proof.
  induction post as [|r post IH]; intros fuel pre Hfuel.
  - destruct fuel; simpl; [done|].
    rewrite app_nil_r. by rewrite bool_decide_eq_false_2 by lia.
  - destruct fuel as [|fuel]; simpl in *; [lia|].
    rewrite bool_decide_eq_true_2 by (rewrite length_app; simpl; lia).
    rewrite list_lookup_middle by done.
    destruct (user_address r =? u).
    + f_equal. rewrite <- (Nat.add_0_r (length pre)). by rewrite insert_app_r.
    + replace (length pre + 1)%nat with (length (pre ++ [r]))
        by (rewrite length_app; simpl; lia).
      rewrite (cons_middle r pre post), (assoc_L (++)).
      rewrite IH by lia. by rewrite <- (assoc_L (++)).
Qed.

(** The scan terminates within [len] iterations and never indexes out of
    bounds. *)
Lemma checkout_loop_eq u now v :
  checkout_loop (length v) u now (length v) 0 v = inr (update_first u now v).
Proof. by apply (checkout_loop_from u now v (length v) []). Qed.

Lemma mark_checkout_eq u d now s :
  mark_checkout u d now s =
    match daily_attendance s !! u with
    | None => Aborted ENOT_FOUND s
    | Some user_attendance =>
      match user_attendance !! d with
      | None => Aborted (Code E_USER_NOT_FOUND) s
      | Some r =>
        match attendance_records s !! d with
        | None =>
          Aborted ENOT_FOUND
            (set_daily_attendance
               (<[u := <[d := set_check_out_time now r]> user_attendance]>
                  (daily_attendance s)) s)
        | Some daily_records =>
          Done tt (checked_out s u d user_attendance r daily_records now)
        end
      end
    end.
Proof.
  unfold mark_checkout, smart_table.borrow, smart_table.contains. run_M.
  destruct (daily_attendance s !! u) as [ua|]; simpl; [|done].
  destruct (ua !! d) as [r|]; simpl; [|done].
  destruct (attendance_records s !! d) as [v|]; simpl; [|done].
  by rewrite checkout_loop_eq.
Qed.

(** ** The scan of [mark_checkout] *)

Lemma update_first_subjects u now v :
  user_address <$> update_first u now v = user_address <$> v.
Proof.
  induction v as [|x v IH]; csimpl; [done|].
  destruct (user_address x =? u); csimpl; [done|]. by rewrite IH.
Qed.

Lemma elem_of_update_first u now v r' :
  NoDup (user_address <$> v) →
  r' ∈ update_first u now v ↔
    (∃ x, x ∈ v ∧ user_address x = u ∧ r' = set_check_out_time now x)
    ∨ (r' ∈ v ∧ user_address r' ≠ u).
Proof.
  induction v as [|x v IH]; csimpl.
  - intros _. split; [by intros ?%elem_of_nil|].
    by intros [(? & ?%elem_of_nil & _)|[?%elem_of_nil _]].
  - intros [Hx Hv]%NoDup_cons. specialize (IH Hv).
    assert (Hin : ∀ y, y ∈ v → user_address y ≠ user_address x).
    { intros y Hy Heq. apply Hx. rewrite <- Heq. by apply list_elem_of_fmap_2. }
    destruct (N.eqb_spec (user_address x) u) as [Hu|Hu].
    + rewrite !elem_of_cons. split.
      * intros [->|Hr'].
        -- left. exists x. by rewrite elem_of_cons; auto.
        -- right. split; [auto|]. rewrite <- Hu. auto.
      * intros [(y & [->|Hy]%elem_of_cons & Hyu & ->)|[[->|Hr'] Hne]]; auto.
        -- exfalso. apply (Hin y); congruence.
        -- congruence.
    + rewrite elem_of_cons, IH. split.
      * intros [->|[(y & Hy & Hyu & ->)|[Hr' Hne]]].
        -- right. by rewrite elem_of_cons; auto.
        -- left. exists y. by rewrite elem_of_cons; auto.
        -- right. by rewrite elem_of_cons; auto.
      * intros [(y & [->|Hy]%elem_of_cons & Hyu & ->)|[[->|Hr']%elem_of_cons Hne]];
          [congruence|eauto 6..].
Qed.

(** The first match of the scan, when subjects are unique, is the only
    match. *)
Lemma list_find_subject u (v : list AttendanceRecord) r :
  NoDup (user_address <$> v) → r ∈ v → user_address r = u →
  snd <$> list_find (λ x, user_address x = u) v = Some r.
Proof.
  intros Hnd Hr Hu.
  destruct (list_find_elem_of (λ x, user_address x = u) v r Hr Hu) as [[i x] Hfind].
  rewrite Hfind. simpl. f_equal.
  apply list_find_Some in Hfind as (Hi & Hx & _).
  apply list_elem_of_lookup in Hr as [j Hj].
  assert (i = j) as ->; [|congruence].
  eapply NoDup_lookup; [exact Hnd| |]; rewrite list_lookup_fmap.
  - by rewrite Hi.
  - rewrite Hj. simpl. congruence.
Qed.

(** ** The indices after each write *)

Lemma by_account_Some s u d r :
  by_account s u d = Some r ↔
  ∃ user_attendance, daily_attendance s !! u = Some user_attendance
                     ∧ user_attendance !! d = Some r.
Proof.
  unfold by_account. destruct (daily_attendance s !! u) as [ua|]; simpl.
  - split; [eauto|]. by intros (? & [= <-] & ?).
  - split; [done|]. by intros (? & [=] & _).
Qed.

Lemma by_account_marked s ua rec now u d :
  daily_attendance s !! user_address rec = Some ua →
  by_account (marked s ua rec now) u d =
    if decide (u = user_address rec ∧ d = date rec) then Some rec
    else by_account s u d.
Proof.
  intros Hua. unfold by_account, marked. simpl.
  destruct (decide (u = user_address rec)) as [->|Hu].
  - rewrite lookup_insert_eq, Hua. simpl.
    destruct (decide (d = date rec)) as [->|Hd].
    + rewrite lookup_insert_eq. by rewrite decide_True.
    + rewrite lookup_insert_ne by done. rewrite decide_False; [done|]. by intros [_ ?].
  - rewrite lookup_insert_ne by done. rewrite decide_False; [done|]. by intros [? _].
Qed.

Lemma by_date_marked s ua rec now d r :
  by_date (marked s ua rec now) d r ↔ by_date s d r ∨ (d = date rec ∧ r = rec).
Proof.
  unfold by_date, marked. simpl.
  destruct (decide (d = date rec)) as [->|Hd].
  - rewrite lookup_insert_eq. split.
    + intros (v & [= <-] & [Hr|Hr%list_elem_of_singleton]%elem_of_app); [|auto].
      left. destruct (attendance_records s !! date rec) as [v|]; simpl in Hr.
      * eauto.
      * by apply elem_of_nil in Hr.
    + intros [(v & Hv & Hr)|[_ ->]]; eexists; (split; [done|]).
      * rewrite Hv. simpl. apply elem_of_app. auto.
      * apply elem_of_app. right. by apply list_elem_of_singleton.
  - rewrite lookup_insert_ne by done. split; [auto|].
    by intros [?|[? _]].
Qed.

Lemma by_account_checked_out s u0 d0 ua r0 v now u d :
  daily_attendance s !! u0 = Some ua →
  by_account (checked_out s u0 d0 ua r0 v now) u d =
    if decide (u = u0 ∧ d = d0) then Some (set_check_out_time now r0)
    else by_account s u d.
Proof.
  intros Hua. unfold by_account, checked_out. simpl.
  destruct (decide (u = u0)) as [->|Hu].
  - rewrite lookup_insert_eq, Hua. simpl.
    destruct (decide (d = d0)) as [->|Hd].
    + rewrite lookup_insert_eq. by rewrite decide_True.
    + rewrite lookup_insert_ne by done. rewrite decide_False; [done|]. by intros [_ ?].
  - rewrite lookup_insert_ne by done. rewrite decide_False; [done|]. by intros [? _].
Qed.

Lemma by_date_checked_out s u0 d0 ua r0 v now d r :
  attendance_records s !! d0 = Some v →
  by_date (checked_out s u0 d0 ua r0 v now) d r ↔
    if decide (d = d0) then r ∈ update_first u0 now v else by_date s d r.
Proof.
  intros Hv. unfold by_date, checked_out. simpl.
  destruct (decide (d = d0)) as [->|Hd].
  - rewrite lookup_insert_eq. split; [by intros (? & [= <-] & ?)|eauto].
  - by rewrite lookup_insert_ne.
Qed.

Lemma initialize_eq a now (st : gmap N AttendanceSystem) :
  initialize a now st =
    match st !! a with
    | Some _ => inl RESOURCE_ALREADY_EXISTS
    | None => inr (<[a := genesis a now]> st)
    end.
Proof.
  unfold initialize, move_to, smart_table.add, smart_table.contains,
    smart_table.new. simpl.
  rewrite !lookup_empty. done.
Qed.

(** ** The invariants hold at creation and are kept by every write *)

Lemma genesis_inv a now : ledger_inv (genesis a now).
Proof.
  split; split; simpl.
  - by rewrite !dom_insert_L, !dom_empty_L.
  - intros a' u [<- <-]%lookup_insert_Some_empty. done.
  - intros a' u [<- <-]%lookup_insert_Some_empty. done.
  - rewrite lookup_insert_eq. eauto.
  - intros u d r. rewrite by_account_Some. unfold by_date. simpl. split.
    + intros (ua & [<- <-]%lookup_insert_Some_empty & Hr). by rewrite lookup_empty in Hr.
    + intros (_ & v & Hv & _). by rewrite lookup_empty in Hv.
  - intros d r (v & Hv & _). simpl in Hv. by rewrite lookup_empty in Hv.
  - intros d v Hv. by rewrite lookup_empty in Hv.
Qed.

Lemma registered_inv s a n t now :
  ledger_inv s →
  t = USER_TYPE_STUDENT ∨ t = USER_TYPE_TEACHER →
  users s !! a = None →
  ledger_inv (registered s a n t now).
Proof.
  intros [[Hkeys Hfiled Honly Hadm] [Hsame Hdate Hone]] Ht Ha.
  assert (Hda : daily_attendance s !! a = None).
  { apply not_elem_of_dom. rewrite <- Hkeys. by apply not_elem_of_dom. }
  assert (Hne : a ≠ admin s).
  { intros ->. rewrite Ha in Hadm. by destruct Hadm. }
  split; split; simpl.
  - by rewrite !dom_insert_L, Hkeys.
  - intros a' u [[<- <-]|[_ Hu]]%lookup_insert_Some; [done|eauto].
  - intros a' u [[<- <-]|[Hne' Hu]]%lookup_insert_Some; [|eauto].
    simpl. split; [|done]. by destruct Ht as [-> | ->].
  - rewrite lookup_insert_ne by done. done.
  - intros u d r. rewrite <- (Hsame u d r). unfold by_account. simpl.
    destruct (decide (u = a)) as [->|Hu].
    + rewrite lookup_insert_eq, Hda. simpl. by rewrite lookup_empty.
    + by rewrite lookup_insert_ne.
  - exact Hdate.
  - exact Hone.
Qed.

Lemma marked_inv s ua m u d p now :
  ledger_inv s →
  daily_attendance s !! u = Some ua →
  ua !! d = None →
  ledger_inv (marked s ua (new_record m u d p now) now).
Proof.
  intros [[Hkeys Hfiled Honly Hadm] [Hsame Hdate Hone]] Hua Hd.
  set (rec := new_record m u d p now).
  assert (Hfresh : ∀ r, by_date s d r → user_address r ≠ u).
  { intros r Hr Hu.
    assert (by_account s u d = Some r) as Hacc by (apply Hsame; done).
    apply by_account_Some in Hacc as (ua' & Hua' & Hr'). congruence. }
  split; split.
  - simpl. rewrite dom_insert_lookup_L by eauto. exact Hkeys.
  - exact Hfiled.
  - exact Honly.
  - exact Hadm.
  - intros u' d' r. rewrite by_account_marked by done. rewrite by_date_marked.
    simpl. case_decide as Hcase.
    + destruct Hcase as [-> ->]. split.
      * intros [= <-]. auto.
      * intros [Hu [Hr|[_ ->]]]; [|done]. by destruct (Hfresh r Hr).
    + rewrite Hsame. split; [intuition|].
      intros [Hu [Hr|[-> ->]]]; [done|]. destruct Hcase. done.
  - intros d' r [Hr|[-> ->]]%by_date_marked; [eauto|done].
  - intros d' v. unfold marked. simpl.
    intros [[<- <-]|[_ Hv]]%lookup_insert_Some; [|eauto].
    rewrite fmap_app. simpl. apply NoDup_app. split_and!.
    + destruct (attendance_records s !! d) as [v|] eqn:Hv; simpl; [eauto|].
      apply NoDup_nil_2.
    + intros x (r & -> & Hr)%list_elem_of_fmap Hu%list_elem_of_singleton.
      apply (Hfresh r); [|done].
      destruct (attendance_records s !! d) as [v|] eqn:Hv; simpl in Hr.
      * by exists v.
      * by apply elem_of_nil in Hr.
    + apply NoDup_singleton.
Qed.

Lemma checked_out_inv s u d ua r v now :
  ledger_inv s →
  daily_attendance s !! u = Some ua →
  ua !! d = Some r →
  attendance_records s !! d = Some v →
  ledger_inv (checked_out s u d ua r v now).
Proof.
  intros [[Hkeys Hfiled Honly Hadm] [Hsame Hdate Hone]] Hua Hr Hv.
  assert (Hacc : by_account s u d = Some r) by (apply by_account_Some; eauto).
  pose proof (proj1 (Hsame u d r) Hacc) as [Hru Hrd].
  assert (Hnd := Hone d v Hv).
  assert (Honly_r : ∀ x, x ∈ v → user_address x = u → x = r).
  { intros x Hx Hxu.
    assert (by_account s u d = Some x) as Hacc'; [|congruence].
    apply Hsame. split; [done|]. by exists v. }
  assert (Hrv : r ∈ v).
  { destruct Hrd as (v' & Hv' & Hin). congruence. }
  assert (Hmem : ∀ r', r' ∈ update_first u now v ↔
            r' = set_check_out_time now r ∨ (r' ∈ v ∧ user_address r' ≠ u)).
  { intros r'. rewrite elem_of_update_first by done. split.
    - intros [(x & Hx & Hxu & ->)|?]; [|auto]. left. f_equal. auto.
    - intros [->|?]; [|auto]. left. eauto. }
  split; split.
  - simpl. rewrite dom_insert_lookup_L by eauto. exact Hkeys.
  - exact Hfiled.
  - exact Honly.
  - exact Hadm.
  - intros u' d' r'. rewrite by_account_checked_out by done.
    rewrite by_date_checked_out by done.
    destruct (decide (d' = d)) as [->|Hd].
    + rewrite Hmem. destruct (decide (u' = u)) as [->|Hu].
      * rewrite decide_True by done. split.
        -- intros [= <-]. auto.
        -- intros [Hu' [->|[_ Hne]]]; done.
      * rewrite decide_False by (by intros [? _]). rewrite Hsame. split.
        -- intros [<- (v' & Hv' & Hin)]. split; [done|]. right.
           split; [congruence|done].
        -- intros [<- [->|[Hin _]]]; [done|]. split; [done|]. by exists v.
    + rewrite decide_False by (by intros [_ ?]). apply Hsame.
  - intros d' r'. rewrite by_date_checked_out by done.
    destruct (decide (d' = d)) as [->|Hd]; [|eauto].
    intros [->|[Hin _]]%Hmem.
    + simpl. apply Hdate. by exists v.
    + apply Hdate. by exists v.
  - intros d' v'. unfold checked_out. simpl.
    intros [[<- <-]|[_ Hv']]%lookup_insert_Some; [|eauto].
    by rewrite update_first_subjects.
Qed.

(** ** What a returning call did *)

Lemma register_user_Done s a n t now x s' :
  register_user a n t now s = Done x s' →
  (t = USER_TYPE_STUDENT ∨ t = USER_TYPE_TEACHER) ∧ users s !! a = None
  ∧ s' = registered s a n t now.
Proof.
  rewrite register_user_eq.
  destruct (N.eqb_spec t USER_TYPE_STUDENT), (N.eqb_spec t USER_TYPE_TEACHER);
    simpl; try done;
    (destruct (smart_table.contains (users s) a) eqn:Hus; [done|];
     destruct (smart_table.contains (daily_attendance s) a); [done|];
     intros [= _ <-]; apply contains_false in Hus; auto).
Qed.

Lemma mark_attendance_Done s m u d p now x s' :
  mark_attendance m u d p now s = Done x s' →
  may_mark s m u = true ∧ is_Some (users s !! u)
  ∧ ∃ ua, daily_attendance s !! u = Some ua ∧ ua !! d = None
          ∧ s' = marked s ua (new_record m u d p now) now.
Proof.
  rewrite mark_attendance_eq.
  destruct (may_mark s m u); simpl; [|done].
  destruct (smart_table.contains (users s) u) eqn:Hus; simpl; [|done].
  destruct (daily_attendance s !! u) as [ua|]; [|done].
  destruct (smart_table.contains ua d) eqn:Hd; [done|].
  intros [= _ <-]. apply contains_true in Hus. apply contains_false in Hd.
  eauto 10.
Qed.

Lemma mark_checkout_Done s u d now x s' :
  mark_checkout u d now s = Done x s' →
  ∃ ua r v, daily_attendance s !! u = Some ua ∧ ua !! d = Some r
            ∧ attendance_records s !! d = Some v
            ∧ s' = checked_out s u d ua r v now.
Proof.
  rewrite mark_checkout_eq.
  destruct (daily_attendance s !! u) as [ua|]; [|done].
  destruct (ua !! d) as [r|] eqn:Hr; [|done].
  destruct (attendance_records s !! d) as [v|] eqn:Hv; [|done].
  intros [= _ <-]. eauto 10.
Qed.

Lemma register_user_kept s a n t now x s' :
  ledger_inv s → register_user a n t now s = Done x s' →
  ledger_inv s' ∧ same_accounts s s'.
Proof.
  intros Hinv (Ht & Ha & ->)%register_user_Done. split.
  - by apply registered_inv.
  - split; [done|]. simpl. by apply insert_subseteq.
Qed.

Lemma mark_attendance_kept s m u d p now x s' :
  ledger_inv s → mark_attendance m u d p now s = Done x s' →
  ledger_inv s' ∧ same_accounts s s'.
Proof.
  intros Hinv (_ & _ & ua & Hua & Hd & ->)%mark_attendance_Done. split.
  - by apply marked_inv.
  - by split.
Qed.

Lemma mark_checkout_kept s u d now x s' :
  ledger_inv s → mark_checkout u d now s = Done x s' →
  ledger_inv s' ∧ same_accounts s s'.
Proof.
  intros Hinv (ua & r & v & Hua & Hr & Hv & ->)%mark_checkout_Done. split.
  - by apply checked_out_inv.
  - by split.
Qed.

(** ** Storage *)

Section storage_facts.
Variable wenidi_addr : Address.
Implicit Types (st : gmap N AttendanceSystem) (s : AttendanceSystem).

Lemma borrow_global_mut_inr body st st' :
  borrow_global_mut wenidi_addr body st = inr st' →
  ∃ s s', st !! wenidi_addr = Some s ∧ body s = Done tt s'
          ∧ st' = <[wenidi_addr := s']> st.
Proof.
  unfold borrow_global_mut. destruct (st !! wenidi_addr) as [s|]; [|done].
  destruct (body s) as [[] s'|] eqn:Hbody; [|done]. intros [= <-]. eauto.
Qed.

Lemma borrow_global_mut_Some body st s :
  st !! wenidi_addr = Some s →
  borrow_global_mut wenidi_addr body st =
    match body s with
    | Done _ s' => inr (<[wenidi_addr := s']> st)
    | Aborted e _ => inl e
    end.
Proof. intros Hs. unfold borrow_global_mut. by rewrite Hs. Qed.

(** A transaction that returns rewrote at most one ledger, kept its
    accounts and its invariants, and removed none. *)
Lemma run_kept now tx st st' :
  storage_inv st → run wenidi_addr now tx st = inr st' →
  storage_inv st'
  ∧ ∀ a s, st !! a = Some s → ∃ s', st' !! a = Some s' ∧ same_accounts s s'.
Proof.
  intros Hinv Hrun.
  assert (Hbody : ∀ body,
    (∀ s s', ledger_inv s → body s = Done tt s' → ledger_inv s' ∧ same_accounts s s') →
    borrow_global_mut wenidi_addr body st = inr st' →
    storage_inv st'
    ∧ ∀ a s, st !! a = Some s → ∃ s', st' !! a = Some s' ∧ same_accounts s s').
  { intros body Hkept (s & s' & Hs & Hdone & ->)%borrow_global_mut_inr.
    destruct (Hinv _ _ Hs) as [Hadm Hs_inv].
    destruct (Hkept _ _ Hs_inv Hdone) as [Hs'_inv [Hadm' Hsub]]. split.
    - intros a s0 [[<- <-]|[_ Hs0]]%lookup_insert_Some; [|eauto].
      split; [congruence|done].
    - intros a s0 Hs0. destruct (decide (a = wenidi_addr)) as [->|Hne].
      + rewrite lookup_insert_eq. exists s'. split; [done|].
        assert (s0 = s) as -> by congruence. by split.
      + rewrite lookup_insert_ne by done. exists s0. by split. }
  destruct tx as [a|a n t|m u d p|u d]; simpl in Hrun.
  - rewrite initialize_eq in Hrun. destruct (st !! a) eqn:Ha; [done|].
    injection Hrun as <-. split.
    + intros b s [[<- <-]|[_ Hs]]%lookup_insert_Some; [|eauto].
      split; [done|apply genesis_inv].
    + intros b s Hs. exists s. rewrite lookup_insert_ne by congruence.
      by split.
  - eapply Hbody; [|exact Hrun]. intros s s'. apply register_user_kept.
  - eapply Hbody; [|exact Hrun]. intros s s'. apply mark_attendance_kept.
  - eapply Hbody; [|exact Hrun]. intros s s'. apply mark_checkout_kept.
Qed.

Lemma execute_kept now tx st :
  storage_inv st →
  storage_inv (execute wenidi_addr now tx st)
  ∧ ∀ a s, st !! a = Some s →
      ∃ s', execute wenidi_addr now tx st !! a = Some s' ∧ same_accounts s s'.
Proof.
  intros Hinv. unfold execute.
  destruct (run wenidi_addr now tx st) as [e|st'] eqn:Hrun.
  - split; [done|]. intros a s Hs. exists s. by split.
  - by eapply run_kept.
Qed.

Lemma execute_all_kept txs : ∀ st,
  storage_inv st →
  storage_inv (execute_all wenidi_addr txs st)
  ∧ ∀ a s, st !! a = Some s →
      ∃ s', execute_all wenidi_addr txs st !! a = Some s' ∧ same_accounts s s'.
Proof.
  induction txs as [|[now tx] txs IH]; intros st Hinv; simpl.
  - split; [done|]. intros a s Hs. exists s. by split.
  - destruct (execute_kept now tx st Hinv) as [Hinv1 Hkept1].
    destruct (IH _ Hinv1) as [Hinv2 Hkept2]. split; [done|].
    intros a s Hs. destruct (Hkept1 _ _ Hs) as (s1 & Hs1 & [Hadm1 Hsub1]).
    destruct (Hkept2 _ _ Hs1) as (s2 & Hs2 & [Hadm2 Hsub2]).
    exists s2. split; [done|]. split; [congruence|by etrans].
Qed.

Lemma reachable_inv st : reachable wenidi_addr st → storage_inv st.
Proof.
  induction 1 as [|st now tx _ IH].
  - intros a s Hs. by rewrite lookup_empty in Hs.
  - by apply execute_kept.
Qed.

Lemma reachable_execute_all txs st :
  reachable wenidi_addr st → reachable wenidi_addr (execute_all wenidi_addr txs st).
Proof.
  revert st. induction txs as [|[now tx] txs IH]; intros st Hst; simpl; [done|].
  apply IH. by constructor.
Qed.
End storage_facts.

(** ** The two indices agree *)

Lemma indices_agree s u d :
  dual_write_consistent s → by_account s u d = first_by_date s u d.
Proof.
  intros [Hsame Hdate Hone]. unfold first_by_date.
  destruct (by_account s u d) as [r|] eqn:Hacc.
  - apply Hsame in Hacc as [Hu (v & Hv & Hr)]. rewrite Hv. simpl.
    symmetry. apply list_find_subject; eauto.
  - destruct (attendance_records s !! d) as [v|] eqn:Hv; simpl; [|done].
    destruct (list_find _ v) as [[i x]|] eqn:Hfind; simpl; [|done].
    apply list_find_Some in Hfind as (Hi & Hx & _).
    assert (by_account s u d = Some x) as Hacc'; [|congruence].
    apply Hsame. split; [done|]. exists v. split; [done|].
    by eapply list_elem_of_lookup_2.
Qed.

Lemma scenario_reachable :
  reachable Scenario.deployer Scenario.checked
  ∧ reachable Scenario.deployer Scenario.marked_day
  ∧ reachable Scenario.deployer Scenario.with_teacher
  ∧ reachable Scenario.deployer Scenario.initialized.
Proof.
  unfold Scenario.checked, Scenario.marked_day, Scenario.with_teacher,
    Scenario.with_student, Scenario.initialized.
  split_and!; repeat apply reachable_step; apply reachable_empty.
Defined.

(** * The claims *)



(** C2. Dual-write consistency. In every storage that transactions can
    produce, the per-date sequences and the per-account maps of a ledger
    hold the same records, and looking an (account, date) pair up in either
    index gives the same answer. A [mark_attendance] that returns has put
    the one record it built into both indices, a [mark_checkout] that
    returns has put the check-out time on the record in both, and both
    leave the indices consistent. *)
Theorem dual_write_reachable wenidi_addr (st : gmap N AttendanceSystem) a s :
  reachable wenidi_addr st → st !! a = Some s →
  dual_write_consistent s
  ∧ (∀ u d, by_account s u d = first_by_date s u d)
  ∧ (∀ m u d p now s', mark_attendance m u d p now s = Done tt s' →
       by_account s' u d = Some (new_record m u d p now)
       ∧ first_by_date s' u d = Some (new_record m u d p now)
       ∧ dual_write_consistent s')
  ∧ (∀ u d now s', mark_checkout u d now s = Done tt s' →
       ∃ r, by_account s u d = Some r
            ∧ by_account s' u d = Some (set_check_out_time now r)
            ∧ first_by_date s' u d = Some (set_check_out_time now r)
            ∧ dual_write_consistent s').
Proof.
  intros Hst Hs. destruct (reachable_inv _ _ Hst _ _ Hs) as [_ Hinv].
  split_and!.
  - apply Hinv.
  - intros u d. apply indices_agree, Hinv.
  - intros m u d p now s' Hdone.
    destruct (mark_attendance_kept _ _ _ _ _ _ _ _ Hinv Hdone) as [[_ Hcons] _].
    apply mark_attendance_Done in Hdone as (_ & _ & ua & Hua & Hd & ->).
    assert (by_account (marked s ua (new_record m u d p now) now) u d
            = Some (new_record m u d p now)) as Hacc.
    { rewrite by_account_marked by done. by rewrite decide_True. }
    split_and!; [done| |done]. by rewrite <- indices_agree.
  - intros u d now s' Hdone.
    destruct (mark_checkout_kept _ _ _ _ _ _ Hinv Hdone) as [[_ Hcons] _].
    apply mark_checkout_Done in Hdone as (ua & r & v & Hua & Hr & Hv & ->).
    exists r.
    assert (by_account (checked_out s u d ua r v now) u d
            = Some (set_check_out_time now r)) as Hacc.
    { rewrite by_account_checked_out by done. by rewrite decide_True. }
    split_and!; [by apply by_account_Some; eauto|done| |done].
    by rewrite <- indices_agree.
Qed.

Lemma dual_write_reachable_witness :
  reachable Scenario.deployer Scenario.checked
  ∧ Scenario.checked !! Scenario.deployer = Some (Scenario.ledger Scenario.checked)
  ∧ dual_write_consistent (Scenario.ledger Scenario.checked).
Proof.
  split_and!.
  - apply scenario_reachable.
  - vm_compute. reflexivity.
  - apply (dual_write_reachable Scenario.deployer Scenario.checked Scenario.deployer).
    + apply scenario_reachable.
    + vm_compute. reflexivity.
Defined.

(** C3. Authorization of [mark_attendance]. The call gets past the
    authorization check exactly when the caller is the subject, or a
    registered Admin, or a registered Teacher. For any other caller the
    call aborts with [E_NOT_AUTHORIZED] before anything is written, and
    the transaction leaves storage, hence both indices, as it was. *)
Theorem mark_attendance_authorization wenidi_addr (st : gmap N AttendanceSystem) s
    m u d p now :
  st !! wenidi_addr = Some s →
  (may_mark s m u = true ↔
     m = u
     ∨ (∃ acct, users s !! m = Some acct ∧ user_type acct = USER_TYPE_ADMIN)
     ∨ (∃ acct, users s !! m = Some acct ∧ user_type acct = USER_TYPE_TEACHER))
  ∧ (may_mark s m u = true →
       run wenidi_addr now (MarkAttendance m u d p) st ≠ inl (Code E_NOT_AUTHORIZED))
  ∧ (may_mark s m u = false →
       mark_attendance m u d p now s = Aborted (Code E_NOT_AUTHORIZED) s
       ∧ run wenidi_addr now (MarkAttendance m u d p) st = inl (Code E_NOT_AUTHORIZED)
       ∧ execute wenidi_addr now (MarkAttendance m u d p) st = st).
Proof.
  intros Hs. split_and!.
  - unfold may_mark. rewrite !orb_true_iff, N.eqb_eq, is_admin_spec, is_teacher_spec.
    tauto.
  - intros Hmay. unfold run. rewrite (borrow_global_mut_Some _ _ _ _ Hs).
    rewrite mark_attendance_eq, Hmay. simpl.
    destruct (smart_table.contains (users s) u); simpl; [|done].
    destruct (daily_attendance s !! u) as [ua|]; [|done].
    by destruct (smart_table.contains ua d).
  - intros Hmay.
    assert (mark_attendance m u d p now s = Aborted (Code E_NOT_AUTHORIZED) s) as Hab.
    { rewrite mark_attendance_eq, Hmay. done. }
    assert (run wenidi_addr now (MarkAttendance m u d p) st
            = inl (Code E_NOT_AUTHORIZED)) as Hrun.
    { unfold run. by rewrite (borrow_global_mut_Some _ _ _ _ Hs), Hab. }
    split_and!; [done..|]. unfold execute. by rewrite Hrun.
Qed.

Lemma mark_attendance_authorization_witness :
  Scenario.with_teacher !! Scenario.deployer
    = Some (Scenario.ledger Scenario.with_teacher)
  ∧ may_mark (Scenario.ledger Scenario.with_teacher)
      Scenario.stranger Scenario.student = false
  ∧ run Scenario.deployer 103
      (MarkAttendance Scenario.stranger Scenario.student "2024-01-11" true)
      Scenario.with_teacher = inl (Code E_NOT_AUTHORIZED).
Proof.
  split_and!.
  - vm_compute. reflexivity.
  - vm_compute. reflexivity.
  - apply (mark_attendance_authorization Scenario.deployer Scenario.with_teacher
             (Scenario.ledger Scenario.with_teacher)).
    + vm_compute. reflexivity.
    + vm_compute. reflexivity.
Defined.

Lemma filter_subject u (v : list AttendanceRecord) r :
  NoDup (user_address <$> v) → r ∈ v → user_address r = u →
  filter (λ x, user_address x = u) v = [r].
Proof.
  induction v as [|x v IH]; csimpl; [by intros _ ?%elem_of_nil|].
  intros [Hx Hv]%NoDup_cons [->|Hr]%elem_of_cons Hu.
  - rewrite filter_cons_True by done. f_equal.
    destruct (filter _ v) as [|y l] eqn:Hfilter; [done|].
    assert (y ∈ filter (λ x, user_address x = u) v) as [Hyu Hy]%list_elem_of_filter
      by (rewrite Hfilter; apply list_elem_of_here).
    destruct Hx. rewrite Hu, <- Hyu. by apply list_elem_of_fmap_2.
  - rewrite filter_cons_False; [auto|].
    intros Hxu. apply Hx. rewrite Hxu, <- Hu. by apply list_elem_of_fmap_2.
Qed.

(** C1. At most one record per (account, date). When a record [r] is on
    file for [(u, d)], it is the only entry for [u] in the sequence of [d],
    and every further [mark_attendance] for [(u, d)] aborts before anything
    is written: with [E_ATTENDANCE_ALREADY_MARKED] when the caller passes
    the authorization check (which comes first) and with [E_NOT_AUTHORIZED]
    otherwise. Storage, and with it [r] in both indices, stays as it was. *)
Theorem attendance_marked_once wenidi_addr (st : gmap N AttendanceSystem) s u d r :
  reachable wenidi_addr st → st !! wenidi_addr = Some s →
  by_account s u d = Some r →
  (∃ daily_records, attendance_records s !! d = Some daily_records
      ∧ filter (λ x, user_address x = u) daily_records = [r])
  ∧ ∀ m p now,
      mark_attendance m u d p now s =
        Aborted (Code (if may_mark s m u then E_ATTENDANCE_ALREADY_MARKED
                       else E_NOT_AUTHORIZED)) s
      ∧ execute wenidi_addr now (MarkAttendance m u d p) st = st.
Proof.
  intros Hst Hs Hacc.
  destruct (reachable_inv _ _ Hst _ _ Hs) as [_ [[Hkeys _ _ _] [Hsame _ Hone]]].
  split.
  - destruct (proj1 (Hsame _ _ _) Hacc) as [Hu (v & Hv & Hr)].
    exists v. split; [done|]. apply filter_subject; eauto.
  - intros m p now.
    assert (mark_attendance m u d p now s =
              Aborted (Code (if may_mark s m u then E_ATTENDANCE_ALREADY_MARKED
                             else E_NOT_AUTHORIZED)) s) as Hab.
    { rewrite mark_attendance_eq. destruct (may_mark s m u); simpl; [|done].
      apply by_account_Some in Hacc as (ua & Hua & Hr).
      assert (smart_table.contains (users s) u = true) as ->.
      { apply contains_dom. rewrite Hkeys. apply elem_of_dom. eauto. }
      simpl. rewrite Hua.
      assert (smart_table.contains ua d = true) as ->; [|done].
      apply contains_true. eauto. }
    split; [done|]. unfold execute, run.
    by rewrite (borrow_global_mut_Some _ _ _ _ Hs), Hab.
Qed.

Lemma attendance_marked_once_witness :
  by_account (Scenario.ledger Scenario.marked_day) Scenario.student "2024-01-10"
    = Some (new_record Scenario.teacher Scenario.student "2024-01-10" true 103)
  ∧ mark_attendance Scenario.student Scenario.student "2024-01-10" true 105
      (Scenario.ledger Scenario.marked_day)
    = Aborted (Code E_ATTENDANCE_ALREADY_MARKED) (Scenario.ledger Scenario.marked_day).
Proof.
  split.
  - vm_compute. reflexivity.
  - apply (attendance_marked_once Scenario.deployer Scenario.marked_day
             (Scenario.ledger Scenario.marked_day) Scenario.student "2024-01-10"
             (new_record Scenario.teacher Scenario.student "2024-01-10" true 103)).
    + apply scenario_reachable.
    + vm_compute. reflexivity.
    + vm_compute. reflexivity.
Defined.

(** C5. Postcondition of [register_user] and its non-idempotence. A
    registration that returns was made with role Student or Teacher; from
    then on the address is registered and [get_user_info] returns the
    account with the given name and role, stamped with the time of the call.
    After any further transactions, every [register_user] from the same
    address aborts: with [E_ALREADY_REGISTERED] when its role is Student or
    Teacher, and with [E_INVALID_USER_TYPE] (the first check) when it is
    not. On an initialized deployment a role other than Student and Teacher
    always aborts with [E_INVALID_USER_TYPE]. *)
Theorem register_user_postcondition wenidi_addr (st st' : gmap N AttendanceSystem)
    a n t now :
  reachable wenidi_addr st →
  run wenidi_addr now (RegisterUser a n t) st = inr st' →
  (t = USER_TYPE_STUDENT ∨ t = USER_TYPE_TEACHER)
  ∧ is_user_registered wenidi_addr a st' = inr true
  ∧ (∃ acct, get_user_info wenidi_addr a st' = inr acct
             ∧ acct = mkUser a n t now ∧ now ≤ registration_time acct)
  ∧ (∀ txs n2 t2 now2,
       run wenidi_addr now2 (RegisterUser a n2 t2) (execute_all wenidi_addr txs st')
       = inl (Code (if (t2 =? USER_TYPE_STUDENT) || (t2 =? USER_TYPE_TEACHER)
                    then E_ALREADY_REGISTERED else E_INVALID_USER_TYPE)))
  ∧ (∀ (st0 : gmap N AttendanceSystem) a3 n3 t3 now3,
       is_Some (st0 !! wenidi_addr) →
       t3 ≠ USER_TYPE_STUDENT → t3 ≠ USER_TYPE_TEACHER →
       run wenidi_addr now3 (RegisterUser a3 n3 t3) st0
       = inl (Code E_INVALID_USER_TYPE)).
Proof.
  intros Hst Hrun. pose proof (reachable_inv _ _ Hst) as Hinv.
  destruct (run_kept _ _ _ _ _ Hinv Hrun) as [Hinv' _].
  simpl in Hrun.
  apply borrow_global_mut_inr in Hrun as (s & s' & Hs & Hdone & ->).
  apply register_user_Done in Hdone as (Ht & Ha & ->).
  assert (Hacct : users (registered s a n t now) !! a = Some (mkUser a n t now))
    by apply lookup_insert_eq.
  assert (Hlater : ∀ txs, ∃ s2,
    execute_all wenidi_addr txs (<[wenidi_addr := registered s a n t now]> st)
      !! wenidi_addr = Some s2 ∧ users s2 !! a = Some (mkUser a n t now)).
  { intros txs.
    destruct (execute_all_kept wenidi_addr txs _ Hinv') as [_ Hkept].
    destruct (Hkept wenidi_addr _ (lookup_insert_eq _ _ _)) as (s2 & Hs2 & _ & Hsub).
    exists s2. split; [done|]. by eapply lookup_weaken. }
  split_and!.
  - done.
  - unfold is_user_registered, borrow_global, view.is_user_registered.
    rewrite lookup_insert_eq. f_equal. apply contains_true. eauto.
  - exists (mkUser a n t now). split_and!; [|done|simpl; lia].
    unfold get_user_info, borrow_global, view.get_user_info, smart_table.borrow,
      smart_table.contains.
    rewrite lookup_insert_eq. by rewrite Hacct.
  - intros txs n2 t2 now2. destruct (Hlater txs) as (s2 & Hs2 & Hacct2).
    simpl. rewrite (borrow_global_mut_Some _ _ _ _ Hs2), register_user_eq.
    destruct ((t2 =? _) || (t2 =? _)); simpl; [|done].
    assert (smart_table.contains (users s2) a = true) as ->; [|done].
    apply contains_true. eauto.
  - intros st0 a3 n3 t3 now3 [s0 Hs0] Hne1 Hne2.
    simpl. rewrite (borrow_global_mut_Some _ _ _ _ Hs0), register_user_eq.
    apply N.eqb_neq in Hne1, Hne2. by rewrite Hne1, Hne2.
Qed.

Lemma register_user_postcondition_witness :
  run Scenario.deployer 101 (RegisterUser Scenario.student "Alice" USER_TYPE_STUDENT)
    Scenario.initialized = inr Scenario.with_student
  ∧ get_user_info Scenario.deployer Scenario.student Scenario.with_student
    = inr (mkUser Scenario.student "Alice" USER_TYPE_STUDENT 101)
  ∧ run Scenario.deployer 102
      (RegisterUser Scenario.student "Alice" USER_TYPE_STUDENT) Scenario.with_student
    = inl (Code E_ALREADY_REGISTERED).
Proof.
  assert (Hrun : run Scenario.deployer 101
            (RegisterUser Scenario.student "Alice" USER_TYPE_STUDENT)
            Scenario.initialized = inr Scenario.with_student)
    by (vm_compute; reflexivity).
  destruct (register_user_postcondition Scenario.deployer Scenario.initialized
              Scenario.with_student Scenario.student "Alice" USER_TYPE_STUDENT 101
              (proj2 (proj2 (proj2 scenario_reachable))) Hrun)
    as (_ & _ & (acct & Hinfo & -> & _) & Hagain & _).
  split_and!; [exact Hrun|exact Hinfo|].
  exact (Hagain [] "Alice" USER_TYPE_STUDENT 102).
Defined.

(** C4, as the code has it. With no record on file for the caller and the
    date, [mark_checkout] aborts before anything is written and storage
    stays as it was; the abort is [E_USER_NOT_FOUND] when the caller has an
    account. With a record [r] on file the call returns, and the per-account
    index and the first entry for the caller in the per-date sequence both
    hold [r] with the check-out time set to the time of the call, which is
    not zero unless the clock is. *)
Theorem mark_checkout_existing_record wenidi_addr (st : gmap N AttendanceSystem) s
    u d now :
  reachable wenidi_addr st → st !! wenidi_addr = Some s →
  match by_account s u d with
  | None =>
    (∃ e, mark_checkout u d now s = Aborted e s
          ∧ run wenidi_addr now (MarkCheckout u d) st = inl e
          ∧ (is_Some (users s !! u) → e = Code E_USER_NOT_FOUND))
    ∧ execute wenidi_addr now (MarkCheckout u d) st = st
  | Some r =>
    ∃ s', mark_checkout u d now s = Done tt s'
          ∧ execute wenidi_addr now (MarkCheckout u d) st = <[wenidi_addr := s']> st
          ∧ by_account s' u d = Some (set_check_out_time now r)
          ∧ first_by_date s' u d = Some (set_check_out_time now r)
          ∧ check_out_time (set_check_out_time now r) = now
          ∧ (now ≠ 0 → check_out_time (set_check_out_time now r) ≠ 0)
  end.
Proof.
  intros Hst Hs.
  destruct (reachable_inv _ _ Hst _ _ Hs) as [_ Hinv].
  pose proof Hinv as [[Hkeys _ _ _] [Hsame _ _]].
  destruct (by_account s u d) as [r|] eqn:Hacc.
  - destruct (proj1 (Hsame _ _ _) Hacc) as [_ (v & Hv & _)].
    apply by_account_Some in Hacc as (ua & Hua & Hr).
    assert (Hdone : mark_checkout u d now s = Done tt (checked_out s u d ua r v now)).
    { rewrite mark_checkout_eq. by rewrite Hua, Hr, Hv. }
    exists (checked_out s u d ua r v now).
    assert (by_account (checked_out s u d ua r v now) u d
            = Some (set_check_out_time now r)) as Hacc'.
    { rewrite by_account_checked_out by done. by rewrite decide_True. }
    split_and!; [done| |done| |done..].
    + unfold execute, run. by rewrite (borrow_global_mut_Some _ _ _ _ Hs), Hdone.
    + rewrite <- indices_agree; [done|]. by apply checked_out_inv.
  - assert (∃ e, mark_checkout u d now s = Aborted e s
                 ∧ (is_Some (users s !! u) → e = Code E_USER_NOT_FOUND))
      as (e & Hab & He).
    { rewrite mark_checkout_eq. unfold by_account in Hacc.
      destruct (daily_attendance s !! u) as [ua|] eqn:Hua; simpl in Hacc.
      - rewrite Hacc. eauto.
      - exists ENOT_FOUND. split; [done|]. intros Hus%elem_of_dom.
        rewrite Hkeys in Hus. apply elem_of_dom in Hus as [? ?]. congruence. }
    assert (run wenidi_addr now (MarkCheckout u d) st = inl e) as Hrun.
    { unfold run. by rewrite (borrow_global_mut_Some _ _ _ _ Hs), Hab. }
    split; [eauto|]. unfold execute. by rewrite Hrun.
Qed.

Lemma mark_checkout_existing_record_witness :
  by_account (Scenario.ledger Scenario.checked) Scenario.student "2024-01-10"
    = Some (set_check_out_time 104
              (new_record Scenario.teacher Scenario.student "2024-01-10" true 103))
  ∧ first_by_date (Scenario.ledger Scenario.checked) Scenario.student "2024-01-10"
    = Some (set_check_out_time 104
              (new_record Scenario.teacher Scenario.student "2024-01-10" true 103)).
Proof.
  pose proof (mark_checkout_existing_record Scenario.deployer Scenario.marked_day
                (Scenario.ledger Scenario.marked_day) Scenario.student "2024-01-10" 104
                (proj1 (proj2 scenario_reachable)) eq_refl) as Hco.
  change (by_account (Scenario.ledger Scenario.marked_day) Scenario.student "2024-01-10")
    with (Some (new_record Scenario.teacher Scenario.student "2024-01-10" true 103))
    in Hco.
  destruct Hco as (s' & _ & Hexec & Hacc & Hfirst & _ & _).
  assert (Scenario.ledger Scenario.checked = s') as ->; [|by split].
  unfold Scenario.ledger, Scenario.checked. rewrite Hexec.
  by rewrite lookup_insert_eq.
Defined.

(** C4 as stated fails: a caller with no account and no record gets the
    table's [ENOT_FOUND] from the unguarded sub-table lookup, not
    [E_USER_NOT_FOUND]. *)
Lemma mark_checkout_no_account :
  by_account (Scenario.ledger Scenario.with_teacher) Scenario.stranger "2024-01-10"
    = None
  ∧ run Scenario.deployer 103 (MarkCheckout Scenario.stranger "2024-01-10")
      Scenario.with_teacher = inl ENOT_FOUND
  ∧ ENOT_FOUND ≠ Code E_USER_NOT_FOUND.
Proof. split_and!; [vm_compute; reflexivity..|discriminate]. Qed.

(** C6, as the code has it. [initialize] publishes the ledger under the
    address of its signer. Once a ledger is published under an address,
    every later [initialize] signed by that address aborts on [move_to] and
    leaves storage as it was. An [initialize] signed by an address that
    holds no ledger returns and publishes a fresh one there. In both cases
    every ledger already published, with its admin, accounts and records,
    stays as it was. *)
Theorem initialize_once_per_signer wenidi_addr (st : gmap N AttendanceSystem) a now :
  reachable wenidi_addr st →
  (is_Some (st !! a) →
     ∀ txs now',
       run wenidi_addr now' (Initialize a) (execute_all wenidi_addr txs st)
         = inl RESOURCE_ALREADY_EXISTS
       ∧ execute wenidi_addr now' (Initialize a) (execute_all wenidi_addr txs st)
         = execute_all wenidi_addr txs st)
  ∧ (st !! a = None →
       run wenidi_addr now (Initialize a) st = inr (<[a := genesis a now]> st))
  ∧ (∀ b s, st !! b = Some s →
       execute wenidi_addr now (Initialize a) st !! b = Some s).
Proof.
  intros Hst. pose proof (reachable_inv _ _ Hst) as Hinv. split_and!.
  - intros [s Hs] txs now'.
    destruct (execute_all_kept wenidi_addr txs _ Hinv) as [_ Hkept].
    destruct (Hkept _ _ Hs) as (s2 & Hs2 & _).
    assert (run wenidi_addr now' (Initialize a) (execute_all wenidi_addr txs st)
            = inl RESOURCE_ALREADY_EXISTS) as Hrun.
    { simpl. by rewrite initialize_eq, Hs2. }
    split; [done|]. unfold execute. by rewrite Hrun.
  - intros Ha. simpl. by rewrite initialize_eq, Ha.
  - intros b s Hs. unfold execute. simpl. rewrite initialize_eq.
    destruct (st !! a) eqn:Ha; [done|].
    rewrite lookup_insert_ne; [done|]. congruence.
Qed.

Lemma initialize_once_per_signer_witness :
  reachable Scenario.deployer Scenario.initialized
  ∧ is_Some (Scenario.initialized !! Scenario.deployer)
  ∧ run Scenario.deployer 105 (Initialize Scenario.deployer) Scenario.checked
    = inl RESOURCE_ALREADY_EXISTS.
Proof.
  assert (Hsome : is_Some (Scenario.initialized !! Scenario.deployer))
    by (vm_compute; eauto).
  split_and!; [apply scenario_reachable|exact Hsome|].
  apply (proj1 (initialize_once_per_signer Scenario.deployer Scenario.initialized
                  Scenario.deployer 100 (proj2 (proj2 (proj2 scenario_reachable))))
           Hsome
           [(101, RegisterUser Scenario.student "Alice" USER_TYPE_STUDENT);
            (102, RegisterUser Scenario.teacher "Bob" USER_TYPE_TEACHER);
            (103, MarkAttendance Scenario.teacher Scenario.student "2024-01-10" true);
            (104, MarkCheckout Scenario.student "2024-01-10")] 105).
Defined.

(** C6 as stated fails: with the deployment's ledger in place, an
    [initialize] signed by another address returns. *)
Lemma initialize_second_signer :
  is_Some (Scenario.initialized !! Scenario.deployer)
  ∧ run Scenario.deployer 101 (Initialize Scenario.stranger) Scenario.initialized
    = inr (<[Scenario.stranger := genesis Scenario.stranger 101]> Scenario.initialized).
Proof. split; [vm_compute; eauto|]. by vm_compute. Qed.

(** C9, as the code has it. The account [initialize] creates for its signer
    is an Admin with the fixed name "System Admin": the ledger it publishes
    under the signer's address is administered by the signer and holds that
    account for the signer. [get_user_info], which reads the ledger under
    [@wenidi_addr], returns it for the signer when the signer is the
    deployment address. *)
Theorem initialize_admin_account wenidi_addr (st st' : gmap N AttendanceSystem) a now :
  run wenidi_addr now (Initialize a) st = inr st' →
  (∃ s, st' !! a = Some s ∧ admin s = a
        ∧ view.get_user_info a s
          = inr (mkUser a "System Admin" USER_TYPE_ADMIN now))
  ∧ (a = wenidi_addr →
       get_user_info wenidi_addr a st'
         = inr (mkUser a "System Admin" USER_TYPE_ADMIN now)
       ∧ get_admin_address wenidi_addr st' = inr a
       ∧ is_user_registered wenidi_addr a st' = inr true).
Proof.
  simpl. rewrite initialize_eq. destruct (st !! a) eqn:Ha; [done|].
  intros [= <-].
  assert (view.get_user_info a (genesis a now)
          = inr (mkUser a "System Admin" USER_TYPE_ADMIN now)) as Hinfo.
  { unfold view.get_user_info, smart_table.contains, smart_table.borrow. simpl.
    by rewrite lookup_insert_eq. }
  split.
  - exists (genesis a now). by rewrite lookup_insert_eq.
  - intros <-.
    unfold get_user_info, get_admin_address, is_user_registered, borrow_global.
    rewrite lookup_insert_eq. split_and!; [done..|].
    unfold view.is_user_registered, smart_table.contains. simpl.
    by rewrite lookup_insert_eq.
Qed.

Lemma initialize_admin_account_witness :
  run Scenario.deployer 100 (Initialize Scenario.deployer) ∅
    = inr Scenario.initialized
  ∧ get_user_info Scenario.deployer Scenario.deployer Scenario.initialized
    = inr (mkUser Scenario.deployer "System Admin" USER_TYPE_ADMIN 100).
Proof.
  assert (Hrun : run Scenario.deployer 100 (Initialize Scenario.deployer) ∅
                 = inr Scenario.initialized) by (vm_compute; reflexivity).
  split; [exact Hrun|].
  apply (initialize_admin_account Scenario.deployer ∅ Scenario.initialized
           Scenario.deployer 100 Hrun). reflexivity.
Defined.

(** C9 as stated fails for a signer other than the deployment address: its
    [initialize] returns, but [get_user_info] reads the deployment's ledger,
    where the signer has no account, or has the account it registered
    before, a Student's here. *)
Lemma initialize_stranger_not_admin :
  run Scenario.deployer 101 (Initialize Scenario.stranger) Scenario.initialized
    = inr (<[Scenario.stranger := genesis Scenario.stranger 101]>
             Scenario.initialized)
  ∧ get_user_info Scenario.deployer Scenario.stranger
      (<[Scenario.stranger := genesis Scenario.stranger 101]> Scenario.initialized)
    = inl (Code E_USER_NOT_FOUND)
  ∧ run Scenario.deployer 103 (Initialize Scenario.student) Scenario.with_teacher
    = inr (<[Scenario.student := genesis Scenario.student 103]>
             Scenario.with_teacher)
  ∧ get_user_info Scenario.deployer Scenario.student
      (<[Scenario.student := genesis Scenario.student 103]> Scenario.with_teacher)
    = inr (mkUser Scenario.student "Alice" USER_TYPE_STUDENT 101).
Proof. split_and!; vm_compute; reflexivity. Qed.

(** C8. On a deployed ledger [get_all_attendance_by_date] aborts with
    [E_NOT_AUTHORIZED] unless the caller is the administrator, the one
    account with the Admin role; for the administrator it returns what
    [get_daily_attendance] returns, which is the sequence of the date, or
    the empty one when the date has none. Both are functions of storage and
    write nothing. *)
Theorem get_all_attendance_by_date_admin_only wenidi_addr
    (st : gmap N AttendanceSystem) s d caller :
  reachable wenidi_addr st → st !! wenidi_addr = Some s →
  (is_admin caller (users s) = true ↔ caller = admin s)
  ∧ get_admin_address wenidi_addr st = inr wenidi_addr
  ∧ get_all_attendance_by_date wenidi_addr d caller st =
      (if decide (caller = admin s) then get_daily_attendance wenidi_addr d st
       else inl (Code E_NOT_AUTHORIZED))
  ∧ get_daily_attendance wenidi_addr d st
    = inr (default [] (attendance_records s !! d)).
Proof.
  intros Hst Hs.
  destruct (reachable_inv _ _ Hst _ _ Hs) as [Hadm [[_ _ Honly [acct Hacct]] _]].
  assert (Hiff : is_admin caller (users s) = true ↔ caller = admin s).
  { rewrite is_admin_spec. split.
    - intros (u & Hu & Ht). by apply (Honly _ _ Hu).
    - intros ->. exists acct. split; [done|]. by apply (Honly _ _ Hacct). }
  assert (Hdaily : view.get_daily_attendance d s
                   = inr (default [] (attendance_records s !! d))).
  { unfold view.get_daily_attendance, smart_table.contains, smart_table.borrow.
    by destruct (attendance_records s !! d). }
  split_and!.
  - done.
  - unfold get_admin_address, borrow_global, view.get_admin_address.
    rewrite Hs. by f_equal.
  - unfold get_all_attendance_by_date, get_daily_attendance, borrow_global.
    rewrite Hs. unfold view.get_all_attendance_by_date.
    case_decide as Hc.
    + apply Hiff in Hc. by rewrite Hc.
    + destruct (is_admin caller (users s)); [|done].
      destruct Hc. by apply Hiff.
  - unfold get_daily_attendance, borrow_global. by rewrite Hs.
Qed.

Lemma get_all_attendance_by_date_admin_only_witness :
  get_all_attendance_by_date Scenario.deployer "2024-01-10" Scenario.deployer
    Scenario.checked
  = get_daily_attendance Scenario.deployer "2024-01-10" Scenario.checked
  ∧ get_all_attendance_by_date Scenario.deployer "2024-01-10" Scenario.student
      Scenario.checked
    = inl (Code E_NOT_AUTHORIZED).
Proof.
  assert (Hs : Scenario.checked !! Scenario.deployer
               = Some (Scenario.ledger Scenario.checked))
    by (vm_compute; reflexivity).
  assert (Hadm : admin (Scenario.ledger Scenario.checked) = Scenario.deployer)
    by (vm_compute; reflexivity).
  split.
  - destruct (get_all_attendance_by_date_admin_only Scenario.deployer
                Scenario.checked (Scenario.ledger Scenario.checked) "2024-01-10"
                Scenario.deployer (proj1 scenario_reachable) Hs)
      as (_ & _ & Hall & _).
    rewrite Hall, Hadm. reflexivity.
  - destruct (get_all_attendance_by_date_admin_only Scenario.deployer
                Scenario.checked (Scenario.ledger Scenario.checked) "2024-01-10"
                Scenario.student (proj1 scenario_reachable) Hs)
      as (_ & _ & Hall & _).
    rewrite Hall, Hadm. reflexivity.
Defined.

(** C7. Atomicity. On every storage that transactions can produce, a
    transaction that aborts leaves storage as it was, and it does so
    because every check of the entry functions precedes their first write:
    [initialize] can only abort on the [move_to] that is its one write to
    storage, and [register_user], [mark_attendance] and [mark_checkout]
    abort with the ledger, its accounts, both indices and both event
    streams, exactly as they found it. *)
Theorem failed_call_writes_nothing wenidi_addr (st : gmap N AttendanceSystem) :
  reachable wenidi_addr st →
  (∀ now tx e, run wenidi_addr now tx st = inl e →
               execute wenidi_addr now tx st = st)
  ∧ (∀ a now e, run wenidi_addr now (Initialize a) st = inl e →
                e = RESOURCE_ALREADY_EXISTS ∧ is_Some (st !! a))
  ∧ (∀ s, st !! wenidi_addr = Some s →
       (∀ a n t now e s', register_user a n t now s = Aborted e s' → s' = s)
       ∧ (∀ m u d p now e s', mark_attendance m u d p now s = Aborted e s' → s' = s)
       ∧ (∀ u d now e s', mark_checkout u d now s = Aborted e s' → s' = s)).
Proof.
  intros Hst. split_and!.
  - intros now tx e Hrun. unfold execute. by rewrite Hrun.
  - intros a now e. simpl. rewrite initialize_eq.
    destruct (st !! a); [|done]. intros [= <-]. eauto.
  - intros s Hs.
    destruct (reachable_inv _ _ Hst _ _ Hs) as [_ [[Hkeys _ _ _] [Hsame _ _]]].
    split_and!.
    + intros a n t now e s'. rewrite register_user_eq.
      destruct (negb _); [by intros [= _ <-]|].
      destruct (smart_table.contains (users s) a) eqn:Hus; [by intros [= _ <-]|].
      simpl.
      assert (smart_table.contains (daily_attendance s) a = false) as ->; [|done].
      apply contains_false, not_elem_of_dom. rewrite <- Hkeys.
      by apply not_elem_of_dom, contains_false.
    + intros m u d p now e s'. rewrite mark_attendance_eq.
      destruct (negb (may_mark s m u)); [by intros [= _ <-]|].
      destruct (negb _); [by intros [= _ <-]|].
      destruct (daily_attendance s !! u) as [ua|]; [|by intros [= _ <-]].
      destruct (smart_table.contains ua d); [by intros [= _ <-]|done].
    + intros u d now e s'. rewrite mark_checkout_eq.
      destruct (daily_attendance s !! u) as [ua|] eqn:Hua; [|by intros [= _ <-]].
      destruct (ua !! d) as [r|] eqn:Hr; [|by intros [= _ <-]].
      assert (by_account s u d = Some r) as Hacc by (apply by_account_Some; eauto).
      destruct (proj1 (Hsame _ _ _) Hacc) as [_ (v & -> & _)]. done.
Qed.

Lemma failed_call_writes_nothing_witness :
  reachable Scenario.deployer Scenario.marked_day
  ∧ run Scenario.deployer 105
      (MarkAttendance Scenario.student Scenario.student "2024-01-10" true)
      Scenario.marked_day = inl (Code E_ATTENDANCE_ALREADY_MARKED)
  ∧ execute Scenario.deployer 105
      (MarkAttendance Scenario.student Scenario.student "2024-01-10" true)
      Scenario.marked_day = Scenario.marked_day.
Proof.
  assert (Hrun : run Scenario.deployer 105
            (MarkAttendance Scenario.student Scenario.student "2024-01-10" true)
            Scenario.marked_day = inl (Code E_ATTENDANCE_ALREADY_MARKED))
    by (vm_compute; reflexivity).
  split_and!; [apply scenario_reachable|exact Hrun|].
  exact (proj1 (failed_call_writes_nothing Scenario.deployer Scenario.marked_day
                  (proj1 (proj2 scenario_reachable))) _ _ _ Hrun).
Defined.

(** * Further properties of the module *)

Lemma scenario_ledgers :
  Scenario.with_teacher !! Scenario.deployer
    = Some (Scenario.ledger Scenario.with_teacher)
  ∧ Scenario.marked_day !! Scenario.deployer
    = Some (Scenario.ledger Scenario.marked_day)
  ∧ Scenario.checked !! Scenario.deployer
    = Some (Scenario.ledger Scenario.checked).
Proof. split_and!; vm_compute; reflexivity. Qed.

(** ** The views, by what they look up *)

Section view_facts.
Variable wenidi_addr : Address.
Implicit Types (st : gmap N AttendanceSystem) (s : AttendanceSystem).

Lemma get_user_attendance_eq st s u d :
  st !! wenidi_addr = Some s →
  get_user_attendance wenidi_addr u d st
  = from_option inr (inl ENOT_FOUND) (by_account s u d).
Proof.
  intros Hs. unfold get_user_attendance, borrow_global. rewrite Hs.
  unfold view.get_user_attendance, smart_table.borrow, by_account.
  destruct (daily_attendance s !! u) as [ua|]; simpl; [|done].
  by destruct (ua !! d).
Qed.

Lemma get_daily_attendance_eq st s d :
  st !! wenidi_addr = Some s →
  get_daily_attendance wenidi_addr d st
  = inr (default [] (attendance_records s !! d)).
Proof.
  intros Hs. unfold get_daily_attendance, borrow_global. rewrite Hs.
  unfold view.get_daily_attendance, smart_table.contains, smart_table.borrow.
  by destruct (attendance_records s !! d).
Qed.

Lemma get_user_info_eq st s a :
  st !! wenidi_addr = Some s →
  get_user_info wenidi_addr a st
  = from_option inr (inl (Code E_USER_NOT_FOUND)) (users s !! a).
Proof.
  intros Hs. unfold get_user_info, borrow_global. rewrite Hs.
  unfold view.get_user_info, smart_table.contains, smart_table.borrow.
  by destruct (users s !! a).
Qed.

Lemma view_inr_ledger {A} (f : AttendanceSystem → abort + A) st x :
  borrow_global wenidi_addr f st = inr x →
  ∃ s, st !! wenidi_addr = Some s ∧ f s = inr x.
Proof.
  unfold borrow_global. destruct (st !! wenidi_addr) as [s|]; [eauto|done].
Qed.

(** ** A returning transaction, by what it wrote *)

Lemma run_cases now tx st st' :
  run wenidi_addr now tx st = inr st' →
  match tx with
  | Initialize a => st !! a = None ∧ st' = <[a := genesis a now]> st
  | RegisterUser a n t =>
    ∃ s, st !! wenidi_addr = Some s
         ∧ (t = USER_TYPE_STUDENT ∨ t = USER_TYPE_TEACHER) ∧ users s !! a = None
         ∧ st' = <[wenidi_addr := registered s a n t now]> st
  | MarkAttendance m u d p =>
    ∃ s ua, st !! wenidi_addr = Some s
            ∧ may_mark s m u = true ∧ is_Some (users s !! u)
            ∧ daily_attendance s !! u = Some ua ∧ ua !! d = None
            ∧ st' = <[wenidi_addr := marked s ua (new_record m u d p now) now]> st
  | MarkCheckout u d =>
    ∃ s ua r v, st !! wenidi_addr = Some s
                ∧ daily_attendance s !! u = Some ua ∧ ua !! d = Some r
                ∧ attendance_records s !! d = Some v
                ∧ st' = <[wenidi_addr := checked_out s u d ua r v now]> st
  end.
Proof.
  destruct tx as [a|a n t|m u d p|u d]; simpl.
  - rewrite initialize_eq. destruct (st !! a); [done|]. by intros [= <-].
  - intros (s & s' & Hs & (Ht & Ha & ->)%register_user_Done & ->)%borrow_global_mut_inr.
    eauto 10.
  - intros (s & s' & Hs & (Hm & Hu & ua & Hua & Hd & ->)%mark_attendance_Done & ->)
             %borrow_global_mut_inr.
    eauto 10.
  - intros (s & s' & Hs & (ua & r & v & Hua & Hr & Hv & ->)%mark_checkout_Done & ->)
             %borrow_global_mut_inr.
    eauto 10.
Qed.

(** A property of ledgers that holds of the one [initialize] publishes and
    is kept by each of the three writes holds of every ledger in every
    storage transactions can produce. *)
Lemma ledger_invariant (P : AttendanceSystem → Prop) :
  (∀ a now, P (genesis a now)) →
  (∀ s a n t now, ledger_inv s → P s →
     t = USER_TYPE_STUDENT ∨ t = USER_TYPE_TEACHER → users s !! a = None →
     P (registered s a n t now)) →
  (∀ s ua m u d p now, ledger_inv s → P s →
     may_mark s m u = true → is_Some (users s !! u) →
     daily_attendance s !! u = Some ua → ua !! d = None →
     P (marked s ua (new_record m u d p now) now)) →
  (∀ s u d ua r v now, ledger_inv s → P s →
     daily_attendance s !! u = Some ua → ua !! d = Some r →
     attendance_records s !! d = Some v →
     P (checked_out s u d ua r v now)) →
  ∀ st, reachable wenidi_addr st → ∀ a s, st !! a = Some s → P s.
Proof.
  intros Hgen Hreg Hmark Hout st Hst.
  induction Hst as [|st now tx Hst IH]; intros a0 s0.
  - by rewrite lookup_empty.
  - pose proof (reachable_inv _ _ Hst) as Hinv. unfold execute.
    destruct (run wenidi_addr now tx st) as [e|st'] eqn:Hrun; [apply IH|].
    apply run_cases in Hrun. destruct tx as [a|a n t|m u d p|u d].
    + destruct Hrun as [Ha ->].
      intros [[<- <-]|[_ Hs0]]%lookup_insert_Some; [apply Hgen|eauto].
    + destruct Hrun as (s & Hs & Ht & Ha & ->).
      intros [[<- <-]|[_ Hs0]]%lookup_insert_Some; [|eauto].
      apply Hreg; eauto. by apply (Hinv _ _ Hs).
    + destruct Hrun as (s & ua & Hs & Hm & Hu & Hua & Hd & ->).
      intros [[<- <-]|[_ Hs0]]%lookup_insert_Some; [|eauto].
      apply Hmark; eauto. by apply (Hinv _ _ Hs).
    + destruct Hrun as (s & ua & r & v & Hs & Hua & Hr & Hv & ->).
      intros [[<- <-]|[_ Hs0]]%lookup_insert_Some; [|eauto].
      apply Hout; eauto. by apply (Hinv _ _ Hs).
Qed.
End view_facts.

Lemma update_first_find u now v :
  update_first u now v =
    match list_find (λ r, user_address r = u) v with
    | Some (i, r) => <[i := set_check_out_time now r]> v
    | None => v
    end.
Proof.
  induction v as [|x v IH]; simpl; [done|].
  destruct (N.eqb_spec (user_address x) u) as [Hu|Hu].
  - by rewrite decide_True.
  - rewrite decide_False by done. rewrite IH.
    by destruct (list_find _ v) as [[i r]|].
Qed.

(** X1. The scan of [mark_checkout], on any vector: it ends without
    indexing out of bounds, keeps the length, and writes the check-out time
    to the first entry whose subject is the caller and to nothing else; with
    no such entry the vector is returned as it was. *)
Theorem checkout_loop_first_match u now (v : list AttendanceRecord) :
  ∃ v', checkout_loop (length v) u now (length v) 0 v = inr v'
        ∧ length v' = length v
        ∧ v' = match list_find (λ r, user_address r = u) v with
               | Some (i, r) => <[i := set_check_out_time now r]> v
               | None => v
               end.
Proof.
  exists (update_first u now v). split_and!.
  - apply checkout_loop_eq.
  - rewrite <- (length_fmap user_address (update_first u now v)).
    by rewrite update_first_subjects, length_fmap.
  - apply update_first_find.
Qed.

(** X2. An address with no account cannot write attendance. On a deployed
    ledger its [mark_attendance] aborts with [E_NOT_AUTHORIZED] for another
    subject and with [E_USER_NOT_FOUND] for itself, and its [mark_checkout]
    aborts in the table lookup. *)
Theorem unregistered_cannot_write wenidi_addr (st : gmap N AttendanceSystem) s m :
  reachable wenidi_addr st → st !! wenidi_addr = Some s →
  users s !! m = None →
  (∀ u d p now,
     run wenidi_addr now (MarkAttendance m u d p) st
     = inl (Code (if m =? u then E_USER_NOT_FOUND else E_NOT_AUTHORIZED)))
  ∧ (∀ d now, run wenidi_addr now (MarkCheckout m d) st = inl ENOT_FOUND).
Proof.
  intros Hst Hs Hm.
  destruct (reachable_inv _ _ Hst _ _ Hs) as [_ [[Hkeys _ _ _] _]].
  split.
  - intros u d p now. simpl.
    rewrite (borrow_global_mut_Some _ _ _ _ Hs), mark_attendance_eq.
    unfold may_mark, is_admin, is_teacher, smart_table.contains. rewrite Hm.
    rewrite !orb_false_r. destruct (N.eqb_spec m u) as [<-|Hne]; simpl; [|done].
    by rewrite Hm.
  - intros d now. simpl.
    rewrite (borrow_global_mut_Some _ _ _ _ Hs), mark_checkout_eq.
    assert (daily_attendance s !! m = None) as ->; [|done].
    apply not_elem_of_dom. rewrite <- Hkeys. by apply not_elem_of_dom.
Qed.

Lemma unregistered_cannot_write_witness :
  users (Scenario.ledger Scenario.with_teacher) !! Scenario.stranger = None
  ∧ run Scenario.deployer 103
      (MarkAttendance Scenario.stranger Scenario.stranger "2024-01-10" true)
      Scenario.with_teacher = inl (Code E_USER_NOT_FOUND).
Proof.
  assert (Hm : users (Scenario.ledger Scenario.with_teacher) !! Scenario.stranger
               = None) by (vm_compute; reflexivity).
  split; [exact Hm|].
  exact (proj1 (unregistered_cannot_write Scenario.deployer Scenario.with_teacher
                  (Scenario.ledger Scenario.with_teacher) Scenario.stranger
                  (proj1 (proj2 (proj2 scenario_reachable))) eq_refl Hm)
           Scenario.stranger "2024-01-10" true 103).
Defined.

(** X3. When [mark_attendance] goes through. On a deployed ledger the call
    returns exactly when the caller passes the authorization check, the
    subject has an account and no record is on file for the subject and
    the date. An authorized caller naming a subject with no account gets
    [E_USER_NOT_FOUND]. *)
Theorem mark_attendance_succeeds_iff wenidi_addr (st : gmap N AttendanceSystem) s
    m u d p now :
  reachable wenidi_addr st → st !! wenidi_addr = Some s →
  ((∃ st', run wenidi_addr now (MarkAttendance m u d p) st = inr st') ↔
     may_mark s m u = true ∧ is_Some (users s !! u) ∧ by_account s u d = None)
  ∧ (may_mark s m u = true → users s !! u = None →
       run wenidi_addr now (MarkAttendance m u d p) st
       = inl (Code E_USER_NOT_FOUND)).
Proof.
  intros Hst Hs.
  destruct (reachable_inv _ _ Hst _ _ Hs) as [_ [[Hkeys _ _ _] _]].
  split.
  - split.
    + intros [st' Hrun]. apply run_cases in Hrun
        as (s0 & ua & Hs0 & Hm & Hu & Hua & Hd & _).
      assert (s0 = s) as -> by congruence. split_and!; [done..|].
      unfold by_account. by rewrite Hua.
    + intros (Hm & Hu & Hacc). simpl.
      rewrite (borrow_global_mut_Some _ _ _ _ Hs), mark_attendance_eq, Hm.
      simpl. rewrite (proj2 (contains_true _ _) Hu). simpl.
      apply elem_of_dom in Hu. rewrite Hkeys in Hu.
      apply elem_of_dom in Hu as [ua Hua]. rewrite Hua.
      unfold by_account in Hacc. rewrite Hua in Hacc. simpl in Hacc.
      rewrite (proj2 (contains_false _ _) Hacc). eauto.
  - intros Hm Hu. simpl.
    rewrite (borrow_global_mut_Some _ _ _ _ Hs), mark_attendance_eq, Hm.
    simpl. by rewrite (proj2 (contains_false _ _) Hu).
Qed.

Lemma mark_attendance_succeeds_iff_witness :
  run Scenario.deployer 103
    (MarkAttendance Scenario.teacher Scenario.stranger "2024-01-10" true)
    Scenario.with_teacher = inl (Code E_USER_NOT_FOUND).
Proof.
  apply (mark_attendance_succeeds_iff Scenario.deployer Scenario.with_teacher
           (Scenario.ledger Scenario.with_teacher) Scenario.teacher
           Scenario.stranger "2024-01-10" true 103
           (proj1 (proj2 (proj2 scenario_reachable))) eq_refl).
  - vm_compute. reflexivity.
  - vm_compute. reflexivity.
Defined.

(** X4. What a returning [mark_attendance] changes, as the views show it:
    [get_user_attendance] now returns the new record (check-in at the time
    of the call, no check-out, marked by the caller), the sequence of the
    date has the record appended after the earlier ones, and every other
    (account, date) pair, every other date and every account read as
    before. *)
Theorem mark_attendance_effect wenidi_addr (st st' : gmap N AttendanceSystem)
    m u d p now :
  run wenidi_addr now (MarkAttendance m u d p) st = inr st' →
  get_user_attendance wenidi_addr u d st' = inr (new_record m u d p now)
  ∧ (∃ old, get_daily_attendance wenidi_addr d st = inr old
            ∧ get_daily_attendance wenidi_addr d st'
              = inr (old ++ [new_record m u d p now]))
  ∧ (∀ u' d', (u', d') ≠ (u, d) →
       get_user_attendance wenidi_addr u' d' st'
       = get_user_attendance wenidi_addr u' d' st)
  ∧ (∀ d', d' ≠ d →
       get_daily_attendance wenidi_addr d' st'
       = get_daily_attendance wenidi_addr d' st)
  ∧ (∀ a, get_user_info wenidi_addr a st' = get_user_info wenidi_addr a st).
Proof.
  intros (s & ua & Hs & Hm & Hu & Hua & Hd & ->)%run_cases.
  set (rec := new_record m u d p now).
  assert (Hs' : <[wenidi_addr := marked s ua rec now]> st !! wenidi_addr
                = Some (marked s ua rec now)) by apply lookup_insert_eq.
  split_and!.
  - rewrite (get_user_attendance_eq _ _ _ _ _ Hs'), by_account_marked by done.
    by rewrite decide_True.
  - exists (default [] (attendance_records s !! d)).
    rewrite (get_daily_attendance_eq _ _ _ _ Hs), (get_daily_attendance_eq _ _ _ _ Hs').
    split; [done|]. simpl. by rewrite lookup_insert_eq.
  - intros u' d' Hne.
    rewrite (get_user_attendance_eq _ _ _ _ _ Hs'), (get_user_attendance_eq _ _ _ _ _ Hs).
    rewrite by_account_marked by done. rewrite decide_False; [done|].
    intros [-> ->]. by destruct Hne.
  - intros d' Hne.
    rewrite (get_daily_attendance_eq _ _ _ _ Hs), (get_daily_attendance_eq _ _ _ _ Hs').
    simpl. by rewrite lookup_insert_ne.
  - intros a.
    by rewrite (get_user_info_eq _ _ _ _ Hs), (get_user_info_eq _ _ _ _ Hs').
Qed.

Lemma mark_attendance_effect_witness :
  run Scenario.deployer 103
    (MarkAttendance Scenario.teacher Scenario.student "2024-01-10" true)
    Scenario.with_teacher = inr Scenario.marked_day
  ∧ get_user_attendance Scenario.deployer Scenario.student "2024-01-10"
      Scenario.marked_day
    = inr (new_record Scenario.teacher Scenario.student "2024-01-10" true 103).
Proof.
  assert (Hrun : run Scenario.deployer 103
            (MarkAttendance Scenario.teacher Scenario.student "2024-01-10" true)
            Scenario.with_teacher = inr Scenario.marked_day)
    by (vm_compute; reflexivity).
  split; [exact Hrun|].
  exact (proj1 (mark_attendance_effect Scenario.deployer Scenario.with_teacher
                  Scenario.marked_day Scenario.teacher Scenario.student
                  "2024-01-10" true 103 Hrun)).
Defined.

Lemma by_account_registered s a n t now u d :
  daily_attendance s !! a = None →
  by_account (registered s a n t now) u d = by_account s u d.
Proof.
  intros Ha. unfold by_account. simpl. destruct (decide (u = a)) as [->|Hne].
  - rewrite lookup_insert_eq, Ha. simpl. by rewrite lookup_empty.
  - by rewrite lookup_insert_ne.
Qed.

Lemma get_user_attendance_inr wenidi_addr (st : gmap N AttendanceSystem) u d r :
  get_user_attendance wenidi_addr u d st = inr r ↔
  ∃ s, st !! wenidi_addr = Some s ∧ by_account s u d = Some r.
Proof.
  split.
  - intros Hview. destruct (view_inr_ledger _ _ _ _ Hview) as (s & Hs & _).
    exists s. split; [done|].
    rewrite (get_user_attendance_eq _ _ _ _ _ Hs) in Hview.
    destruct (by_account s u d); simpl in Hview; congruence.
  - intros (s & Hs & Hacc).
    by rewrite (get_user_attendance_eq _ _ _ _ _ Hs), Hacc.
Qed.

(** X5. When [register_user] goes through, and what it leaves alone. On a
    deployed ledger the call returns exactly when the role is Student or
    Teacher and the address has no account. A returning call changes no
    attendance: every [get_user_attendance] and [get_daily_attendance]
    reads as before (the new account has no record for any date), and so
    does [get_user_info] for every other address. *)
Theorem register_user_succeeds_iff wenidi_addr (st : gmap N AttendanceSystem) s
    a n t now :
  reachable wenidi_addr st → st !! wenidi_addr = Some s →
  ((∃ st', run wenidi_addr now (RegisterUser a n t) st = inr st') ↔
     (t = USER_TYPE_STUDENT ∨ t = USER_TYPE_TEACHER) ∧ users s !! a = None)
  ∧ (∀ st', run wenidi_addr now (RegisterUser a n t) st = inr st' →
       (∀ u d, get_user_attendance wenidi_addr u d st'
               = get_user_attendance wenidi_addr u d st)
       ∧ (∀ d, get_user_attendance wenidi_addr a d st' = inl ENOT_FOUND)
       ∧ (∀ d, get_daily_attendance wenidi_addr d st'
               = get_daily_attendance wenidi_addr d st)
       ∧ (∀ b, b ≠ a → get_user_info wenidi_addr b st'
                       = get_user_info wenidi_addr b st)).
Proof.
  intros Hst Hs.
  destruct (reachable_inv _ _ Hst _ _ Hs) as [_ [[Hkeys _ _ _] _]].
  assert (Hfresh : users s !! a = None → daily_attendance s !! a = None).
  { intros Ha. apply not_elem_of_dom. rewrite <- Hkeys. by apply not_elem_of_dom. }
  split.
  - split.
    + intros [st' (s0 & Hs0 & Ht & Ha & _)%run_cases].
      assert (s0 = s) as -> by congruence. done.
    + intros [Ht Ha]. simpl.
      rewrite (borrow_global_mut_Some _ _ _ _ Hs), register_user_eq.
      assert (negb ((t =? USER_TYPE_STUDENT) || (t =? USER_TYPE_TEACHER)) = false)
        as -> by (by destruct Ht as [-> | ->]).
      rewrite (proj2 (contains_false _ _) Ha). simpl.
      rewrite (proj2 (contains_false _ _) (Hfresh Ha)). eauto.
  - intros st' (s0 & Hs0 & Ht & Ha & ->)%run_cases.
    assert (s0 = s) as -> by congruence.
    assert (Hs' : <[wenidi_addr := registered s a n t now]> st !! wenidi_addr
                  = Some (registered s a n t now)) by apply lookup_insert_eq.
    assert (Hsame : ∀ u d, by_account (registered s a n t now) u d = by_account s u d)
      by (intros u d; apply by_account_registered; auto).
    split_and!.
    + intros u d.
      rewrite (get_user_attendance_eq _ _ _ _ _ Hs'), (get_user_attendance_eq _ _ _ _ _ Hs).
      by rewrite Hsame.
    + intros d. rewrite (get_user_attendance_eq _ _ _ _ _ Hs'), Hsame.
      unfold by_account. by rewrite (Hfresh Ha).
    + intros d.
      by rewrite (get_daily_attendance_eq _ _ _ _ Hs), (get_daily_attendance_eq _ _ _ _ Hs').
    + intros b Hne.
      rewrite (get_user_info_eq _ _ _ _ Hs), (get_user_info_eq _ _ _ _ Hs').
      simpl. by rewrite lookup_insert_ne.
Qed.

Lemma register_user_succeeds_iff_witness :
  ∃ st', run Scenario.deployer 103
           (RegisterUser Scenario.stranger "Carol" USER_TYPE_TEACHER)
           Scenario.with_teacher = inr st'.
Proof.
  apply (proj1 (register_user_succeeds_iff Scenario.deployer
                  Scenario.with_teacher (Scenario.ledger Scenario.with_teacher)
                  Scenario.stranger "Carol" USER_TYPE_TEACHER 103
                  (proj1 (proj2 (proj2 scenario_reachable))) eq_refl)).
  split; [by right|]. vm_compute. reflexivity.
Defined.

(** X6. What a returning [mark_checkout] changes, as the views show it: the
    caller's record for the date gets the time of the call as its check-out
    time and keeps its other fields; in the sequence of the date the first
    entry for the caller gets the same time, with length and order kept;
    every other (account, date) pair, every other date and every account
    read as before, and neither event stream grows. *)
Theorem mark_checkout_effect wenidi_addr (st st' : gmap N AttendanceSystem) u d now :
  run wenidi_addr now (MarkCheckout u d) st = inr st' →
  (∃ r, get_user_attendance wenidi_addr u d st = inr r
        ∧ get_user_attendance wenidi_addr u d st'
          = inr (mkAttendanceRecord (user_address r) (date r) (check_in_time r)
                   now (is_present r) (marked_by r)))
  ∧ (∀ u' d', (u', d') ≠ (u, d) →
       get_user_attendance wenidi_addr u' d' st'
       = get_user_attendance wenidi_addr u' d' st)
  ∧ (∃ v, get_daily_attendance wenidi_addr d st = inr v
          ∧ get_daily_attendance wenidi_addr d st'
            = inr (match list_find (λ r, user_address r = u) v with
                   | Some (i, r) => <[i := set_check_out_time now r]> v
                   | None => v
                   end))
  ∧ (∀ d', d' ≠ d →
       get_daily_attendance wenidi_addr d' st'
       = get_daily_attendance wenidi_addr d' st)
  ∧ (∀ a, get_user_info wenidi_addr a st' = get_user_info wenidi_addr a st)
  ∧ (∃ s s', st !! wenidi_addr = Some s ∧ st' !! wenidi_addr = Some s'
             ∧ attendance_marked_events s' = attendance_marked_events s
             ∧ user_registration_events s' = user_registration_events s).
Proof.
  intros (s & ua & r & v & Hs & Hua & Hr & Hv & ->)%run_cases.
  assert (Hs' : <[wenidi_addr := checked_out s u d ua r v now]> st !! wenidi_addr
                = Some (checked_out s u d ua r v now)) by apply lookup_insert_eq.
  split_and!.
  - exists r. rewrite (get_user_attendance_eq _ _ _ _ _ Hs).
    rewrite (get_user_attendance_eq _ _ _ _ _ Hs'), by_account_checked_out by done.
    rewrite decide_True by done. split; [|done].
    unfold by_account. rewrite Hua. simpl. by rewrite Hr.
  - intros u' d' Hne.
    rewrite (get_user_attendance_eq _ _ _ _ _ Hs'), (get_user_attendance_eq _ _ _ _ _ Hs).
    rewrite by_account_checked_out by done. rewrite decide_False; [done|].
    intros [-> ->]. by destruct Hne.
  - exists v.
    rewrite (get_daily_attendance_eq _ _ _ _ Hs), (get_daily_attendance_eq _ _ _ _ Hs').
    rewrite Hv. split; [done|]. simpl. rewrite lookup_insert_eq. simpl.
    by rewrite update_first_find.
  - intros d' Hne.
    rewrite (get_daily_attendance_eq _ _ _ _ Hs), (get_daily_attendance_eq _ _ _ _ Hs').
    simpl. by rewrite lookup_insert_ne.
  - intros a.
    by rewrite (get_user_info_eq _ _ _ _ Hs), (get_user_info_eq _ _ _ _ Hs').
  - exists s, (checked_out s u d ua r v now). by rewrite Hs'.
Qed.

Lemma mark_checkout_effect_witness :
  run Scenario.deployer 104 (MarkCheckout Scenario.student "2024-01-10")
    Scenario.marked_day = inr Scenario.checked
  ∧ ∀ a, get_user_info Scenario.deployer a Scenario.checked
         = get_user_info Scenario.deployer a Scenario.marked_day.
Proof.
  assert (Hrun : run Scenario.deployer 104
            (MarkCheckout Scenario.student "2024-01-10") Scenario.marked_day
            = inr Scenario.checked) by (vm_compute; reflexivity).
  split; [exact Hrun|].
  apply (mark_checkout_effect Scenario.deployer Scenario.marked_day
           Scenario.checked Scenario.student "2024-01-10" 104 Hrun).
Defined.

(** One transaction and one record: the record stays on file, and only the
    subject's own check-out for its date changes it. *)
Lemma by_account_execute wenidi_addr (st : gmap N AttendanceSystem) s now tx u d r :
  storage_inv st → st !! wenidi_addr = Some s →
  by_account s u d = Some r →
  ∃ s', execute wenidi_addr now tx st !! wenidi_addr = Some s'
        ∧ by_account s' u d = Some (check_out_after now tx u d r).
Proof.
  intros Hinv Hs Hacc.
  destruct (Hinv _ _ Hs) as [_ [[Hkeys _ _ _] [Hsame _ _]]].
  unfold execute.
  destruct (run wenidi_addr now tx st) as [e|st'] eqn:Hrun.
  - exists s. split; [done|]. destruct tx as [a|a n t|m u0 d0 p|u0 d0]; try done.
    simpl. case_decide as Hc; [|done]. destruct Hc as [-> ->].
    simpl in Hrun. rewrite (borrow_global_mut_Some _ _ _ _ Hs) in Hrun.
    rewrite mark_checkout_eq in Hrun.
    destruct (proj1 (Hsame _ _ _) Hacc) as [_ (v & Hv & _)].
    apply by_account_Some in Hacc as (ua & Hua & Hr).
    by rewrite Hua, Hr, Hv in Hrun.
  - apply run_cases in Hrun. destruct tx as [a|a n t|m u0 d0 p|u0 d0]; simpl.
    + destruct Hrun as [Ha ->]. exists s. split; [|done].
      rewrite lookup_insert_ne; [done|]. congruence.
    + destruct Hrun as (s0 & Hs0 & Ht & Ha & ->).
      assert (s0 = s) as -> by congruence.
      exists (registered s a n t now). split; [apply lookup_insert_eq|].
      rewrite by_account_registered; [done|].
      apply not_elem_of_dom. rewrite <- Hkeys. by apply not_elem_of_dom.
    + destruct Hrun as (s0 & ua & Hs0 & Hm & Hu & Hua & Hd & ->).
      assert (s0 = s) as -> by congruence.
      eexists. split; [apply lookup_insert_eq|].
      rewrite by_account_marked by done. rewrite decide_False; [done|].
      simpl. intros [-> ->].
      apply by_account_Some in Hacc as (ua' & Hua' & Hr). congruence.
    + destruct Hrun as (s0 & ua & r0 & v & Hs0 & Hua & Hr0 & Hv & ->).
      assert (s0 = s) as -> by congruence.
      eexists. split; [apply lookup_insert_eq|].
      rewrite by_account_checked_out by done.
      destruct (decide (u0 = u ∧ d0 = d)) as [[-> ->]|Hne].
      * rewrite decide_True by done.
        apply by_account_Some in Hacc as (ua' & Hua' & Hr). congruence.
      * rewrite decide_False; [done|]. intros [-> ->]. by destruct Hne.
Qed.

(** X7. Check-out is not once-only: a second [mark_checkout] for the same
    date goes through and overwrites the check-out time, whatever the two
    times are. *)
Theorem checkout_last_write_wins wenidi_addr (st : gmap N AttendanceSystem)
    u d r now1 now2 :
  reachable wenidi_addr st →
  get_user_attendance wenidi_addr u d st = inr r →
  get_user_attendance wenidi_addr u d
    (execute wenidi_addr now2 (MarkCheckout u d)
       (execute wenidi_addr now1 (MarkCheckout u d) st))
  = inr (set_check_out_time now2 r).
Proof.
  intros Hst (s & Hs & Hacc)%get_user_attendance_inr.
  pose proof (reachable_inv _ _ Hst) as Hinv.
  destruct (by_account_execute wenidi_addr st s now1 (MarkCheckout u d) u d r
              Hinv Hs Hacc) as (s1 & Hs1 & Hacc1).
  pose proof (proj1 (execute_kept wenidi_addr now1 (MarkCheckout u d) st Hinv)) as Hinv1.
  destruct (by_account_execute wenidi_addr _ s1 now2 (MarkCheckout u d) u d _
              Hinv1 Hs1 Hacc1) as (s2 & Hs2 & Hacc2).
  apply get_user_attendance_inr. exists s2. split; [done|].
  rewrite Hacc2. simpl. by rewrite !decide_True.
Qed.

Lemma checkout_last_write_wins_witness :
  get_user_attendance Scenario.deployer Scenario.student "2024-01-10"
    (execute Scenario.deployer 90 (MarkCheckout Scenario.student "2024-01-10")
       Scenario.checked)
  = inr (set_check_out_time 90
           (new_record Scenario.teacher Scenario.student "2024-01-10" true 103)).
Proof.
  apply (checkout_last_write_wins Scenario.deployer Scenario.marked_day
           Scenario.student "2024-01-10"
           (new_record Scenario.teacher Scenario.student "2024-01-10" true 103)
           104 90 (proj1 (proj2 scenario_reachable))).
  vm_compute. reflexivity.
Defined.

Lemma check_out_after_fold u d (txs : list (N * transaction)) : ∀ r,
  ∃ t, foldl (λ r' p, check_out_after p.1 p.2 u d r') r txs
       = set_check_out_time t r.
Proof.
  induction txs as [|[now tx] txs IH]; intros r; simpl.
  - exists (check_out_time r). by destruct r.
  - destruct tx as [a|a n t|m u0 d0 p|u0 d0]; simpl; try apply IH.
    case_decide; [|apply IH].
    destruct (IH (set_check_out_time now r)) as [t ->]. by exists t.
Qed.

Lemma check_out_after_untouched u d (txs : list (N * transaction)) : ∀ r,
  (∀ now, (now, MarkCheckout u d) ∉ txs) →
  foldl (λ r' p, check_out_after p.1 p.2 u d r') r txs = r.
Proof.
  induction txs as [|[now tx] txs IH]; intros r Hno; simpl; [done|].
  assert (check_out_after now tx u d r = r) as ->.
  { destruct tx as [a|a n t|m u0 d0 p|u0 d0]; simpl; try done.
    case_decide as Hc; [|done]. destruct Hc as [-> ->].
    destruct (Hno now). apply list_elem_of_here. }
  apply IH. intros now' Hin. apply (Hno now'). by apply list_elem_of_further.
Qed.

(** X8. Records are never removed or rewritten. A record on file stays on
    file through any run of transactions; its subject, date, check-in time,
    presence flag and marker never change; its check-out time is the time
    of the subject's last [mark_checkout] for that date in the run, and is
    untouched by a run that has none. No one but the subject changes it. *)
Theorem records_persist wenidi_addr (st : gmap N AttendanceSystem) u d r txs :
  reachable wenidi_addr st →
  get_user_attendance wenidi_addr u d st = inr r →
  get_user_attendance wenidi_addr u d (execute_all wenidi_addr txs st)
  = inr (foldl (λ r' p, check_out_after p.1 p.2 u d r') r txs)
  ∧ (∃ t, get_user_attendance wenidi_addr u d (execute_all wenidi_addr txs st)
          = inr (mkAttendanceRecord (user_address r) (date r) (check_in_time r)
                   t (is_present r) (marked_by r)))
  ∧ ((∀ now, (now, MarkCheckout u d) ∉ txs) →
       get_user_attendance wenidi_addr u d (execute_all wenidi_addr txs st) = inr r).
Proof.
  intros Hst Hview.
  assert (Hfold : get_user_attendance wenidi_addr u d (execute_all wenidi_addr txs st)
                  = inr (foldl (λ r' p, check_out_after p.1 p.2 u d r') r txs)).
  { apply reachable_inv in Hst. revert st r Hst Hview.
    induction txs as [|[now tx] txs IH]; intros st r Hinv Hview; simpl; [done|].
    apply get_user_attendance_inr in Hview as (s & Hs & Hacc).
    destruct (by_account_execute wenidi_addr st s now tx u d r Hinv Hs Hacc)
      as (s1 & Hs1 & Hacc1).
    apply IH.
    - by apply execute_kept.
    - apply get_user_attendance_inr. eauto. }
  split_and!.
  - done.
  - destruct (check_out_after_fold u d txs r) as [t Ht]. exists t.
    by rewrite Hfold, Ht.
  - intros Hno. by rewrite Hfold, check_out_after_untouched.
Qed.

Lemma records_persist_witness :
  get_user_attendance Scenario.deployer Scenario.student "2024-01-10"
    (execute_all Scenario.deployer
       [(104, MarkCheckout Scenario.teacher "2024-01-10");
        (105, MarkAttendance Scenario.deployer Scenario.teacher "2024-01-10" false);
        (106, RegisterUser Scenario.stranger "Carol" USER_TYPE_STUDENT)]
       Scenario.marked_day)
  = inr (new_record Scenario.teacher Scenario.student "2024-01-10" true 103).
Proof.
  apply (records_persist Scenario.deployer Scenario.marked_day Scenario.student
           "2024-01-10"
           (new_record Scenario.teacher Scenario.student "2024-01-10" true 103)
           _ (proj1 (proj2 scenario_reachable))).
  - vm_compute. reflexivity.
  - intros now Hin. repeat (apply elem_of_cons in Hin as [[=]|Hin]).
    by apply elem_of_nil in Hin.
Defined.

(** X9. Accounts and the administrator are fixed. Once [get_user_info]
    returns an account for an address it returns the same account, name,
    role and registration time included, after any run of transactions;
    the address stays registered; and [get_admin_address] keeps returning
    the deployment address. *)
Theorem accounts_immutable wenidi_addr (st : gmap N AttendanceSystem) a acct txs :
  reachable wenidi_addr st →
  get_user_info wenidi_addr a st = inr acct →
  get_user_info wenidi_addr a (execute_all wenidi_addr txs st) = inr acct
  ∧ is_user_registered wenidi_addr a (execute_all wenidi_addr txs st) = inr true
  ∧ get_admin_address wenidi_addr st = inr wenidi_addr
  ∧ get_admin_address wenidi_addr (execute_all wenidi_addr txs st) = inr wenidi_addr.
Proof.
  intros Hst Hview. pose proof (reachable_inv _ _ Hst) as Hinv.
  destruct (view_inr_ledger _ _ _ _ Hview) as (s & Hs & _).
  rewrite (get_user_info_eq _ _ _ _ Hs) in Hview.
  destruct (users s !! a) as [acct'|] eqn:Ha; simpl in Hview; [|done].
  injection Hview as ->.
  destruct (execute_all_kept wenidi_addr txs st Hinv) as [Hinv' Hkept].
  destruct (Hkept _ _ Hs) as (s' & Hs' & _ & Hsub).
  pose proof (lookup_weaken _ _ _ _ Ha Hsub) as Ha'.
  split_and!.
  - by rewrite (get_user_info_eq _ _ _ _ Hs'), Ha'.
  - unfold is_user_registered, borrow_global, view.is_user_registered,
      smart_table.contains. by rewrite Hs', Ha'.
  - unfold get_admin_address, borrow_global, view.get_admin_address.
    rewrite Hs. f_equal. apply (Hinv _ _ Hs).
  - unfold get_admin_address, borrow_global, view.get_admin_address.
    rewrite Hs'. f_equal. apply (Hinv' _ _ Hs').
Qed.

Lemma accounts_immutable_witness :
  get_user_info Scenario.deployer Scenario.student
    (execute_all Scenario.deployer
       [(102, RegisterUser Scenario.student "Mallory" USER_TYPE_TEACHER);
        (103, Initialize Scenario.student)]
       Scenario.with_student)
  = inr (mkUser Scenario.student "Alice" USER_TYPE_STUDENT 101).
Proof.
  assert (Hst : reachable Scenario.deployer Scenario.with_student).
  { unfold Scenario.with_student, Scenario.initialized.
    repeat apply reachable_step. apply reachable_empty. }
  apply (accounts_immutable Scenario.deployer Scenario.with_student
           Scenario.student _ _ Hst).
  vm_compute. reflexivity.
Defined.

Lemma roles_wf_reachable wenidi_addr (st : gmap N AttendanceSystem) a s :
  reachable wenidi_addr st → st !! a = Some s → roles_wf s.
Proof.
  intros Hst. revert a s. apply (ledger_invariant wenidi_addr roles_wf); [| | | |done].
  - intros a now b u [<- <-]%lookup_insert_Some_empty. auto.
  - intros s a n t now _ IH Ht _ b u. simpl.
    intros [[<- <-]|[_ Hu]]%lookup_insert_Some; [|eauto].
    simpl. tauto.
  - intros s ua m u d p now _ IH _ _ _ _. exact IH.
  - intros s u d ua r v now _ IH _ _ _. exact IH.
Qed.

(** X10. What [get_user_info] can return. On a deployed ledger the account
    returned for an address carries that address, its role is Student,
    Teacher or Admin, and it is Admin exactly for the deployment address:
    no transaction creates a second administrator. *)
Theorem account_roles wenidi_addr (st : gmap N AttendanceSystem) a acct :
  reachable wenidi_addr st →
  get_user_info wenidi_addr a st = inr acct →
  address acct = a
  ∧ (user_type acct = USER_TYPE_STUDENT ∨ user_type acct = USER_TYPE_TEACHER
     ∨ user_type acct = USER_TYPE_ADMIN)
  ∧ (user_type acct = USER_TYPE_ADMIN ↔ a = wenidi_addr).
Proof.
  intros Hst Hview.
  destruct (view_inr_ledger _ _ _ _ Hview) as (s & Hs & _).
  rewrite (get_user_info_eq _ _ _ _ Hs) in Hview.
  destruct (users s !! a) as [acct'|] eqn:Ha; simpl in Hview; [|done].
  injection Hview as ->.
  destruct (reachable_inv _ _ Hst _ _ Hs) as [Hadm [[_ Hfiled Honly _] _]].
  split_and!.
  - eauto.
  - by apply (roles_wf_reachable _ _ _ _ Hst Hs a).
  - rewrite <- Hadm. eauto.
Qed.

Lemma account_roles_witness :
  user_type (mkUser Scenario.teacher "Bob" USER_TYPE_TEACHER 102) = USER_TYPE_ADMIN
  ↔ Scenario.teacher = Scenario.deployer.
Proof.
  apply (account_roles Scenario.deployer Scenario.checked Scenario.teacher
           (mkUser Scenario.teacher "Bob" USER_TYPE_TEACHER 102)
           (proj1 scenario_reachable)).
  vm_compute. reflexivity.
Defined.

(** X11. The two attendance views agree. On a deployed ledger a record is
    in the sequence [get_daily_attendance] returns for a date exactly when
    [get_user_attendance] returns it for its subject and that date; every
    record of the sequence carries the date it is filed under. *)
Theorem daily_attendance_agrees wenidi_addr (st : gmap N AttendanceSystem) d v :
  reachable wenidi_addr st →
  get_daily_attendance wenidi_addr d st = inr v →
  ∀ r, (r ∈ v ↔ get_user_attendance wenidi_addr (user_address r) d st = inr r)
       ∧ (r ∈ v → date r = d).
Proof.
  intros Hst Hview r.
  destruct (view_inr_ledger _ _ _ _ Hview) as (s & Hs & _).
  rewrite (get_daily_attendance_eq _ _ _ _ Hs) in Hview. injection Hview as <-.
  destruct (reachable_inv _ _ Hst _ _ Hs) as [_ [_ [Hsame Hdate _]]].
  assert (Hin : r ∈ default [] (attendance_records s !! d) ↔ by_date s d r).
  { unfold by_date. destruct (attendance_records s !! d) as [v|]; simpl.
    - split; [eauto|]. by intros (? & [= <-] & ?).
    - split; [by intros ?%elem_of_nil|]. by intros (? & [=] & _). }
  split.
  - rewrite Hin, get_user_attendance_inr. split.
    + intros Hr. exists s. split; [done|]. by apply Hsame.
    + intros (s' & Hs' & Hacc). assert (s' = s) as -> by congruence.
      by apply Hsame in Hacc as [_ ?].
  - intros Hr%Hin. by apply Hdate.
Qed.

Lemma daily_attendance_agrees_witness :
  get_user_attendance Scenario.deployer Scenario.student "2024-01-10"
    Scenario.marked_day
  = inr (new_record Scenario.teacher Scenario.student "2024-01-10" true 103).
Proof.
  assert (Hview : get_daily_attendance Scenario.deployer "2024-01-10"
                    Scenario.marked_day
                  = inr [new_record Scenario.teacher Scenario.student
                           "2024-01-10" true 103])
    by (vm_compute; reflexivity).
  apply (proj1 (proj1 (daily_attendance_agrees Scenario.deployer
                         Scenario.marked_day "2024-01-10" _
                         (proj1 (proj2 scenario_reachable)) Hview
                         (new_record Scenario.teacher Scenario.student
                            "2024-01-10" true 103)))).
  apply list_elem_of_here.
Defined.

(** X12. A day's sequence is bounded by the accounts. On a deployed ledger
    the sequence [get_daily_attendance] returns has no two records of one
    subject, every subject in it is registered, and so it is never longer
    than the number of accounts. *)
Theorem daily_attendance_bounded wenidi_addr (st : gmap N AttendanceSystem) s d v :
  reachable wenidi_addr st → st !! wenidi_addr = Some s →
  get_daily_attendance wenidi_addr d st = inr v →
  NoDup (user_address <$> v)
  ∧ (∀ r, r ∈ v →
       is_user_registered wenidi_addr (user_address r) st = inr true)
  ∧ (length v ≤ size (users s))%nat.
Proof.
  intros Hst Hs Hview.
  rewrite (get_daily_attendance_eq _ _ _ _ Hs) in Hview. injection Hview as <-.
  destruct (reachable_inv _ _ Hst _ _ Hs) as [_ [[Hkeys _ _ _] [Hsame _ Hone]]].
  set (v := default [] (attendance_records s !! d)).
  assert (Hnd : NoDup (user_address <$> v)).
  { unfold v. destruct (attendance_records s !! d) as [v'|] eqn:Hv; simpl; [eauto|].
    apply NoDup_nil_2. }
  assert (Hreg : ∀ r, r ∈ v → user_address r ∈ dom (users s)).
  { intros r Hr.
    assert (by_date s d r) as Hbd.
    { unfold by_date, v in *. destruct (attendance_records s !! d) as [v'|];
        simpl in Hr; [eauto|]. by apply elem_of_nil in Hr. }
    assert (by_account s (user_address r) d = Some r) as Hacc by (by apply Hsame).
    apply by_account_Some in Hacc as (ua & Hua & _).
    rewrite Hkeys. apply elem_of_dom. eauto. }
  split_and!.
  - done.
  - intros r Hr%Hreg. unfold is_user_registered, borrow_global,
      view.is_user_registered. rewrite Hs. f_equal. by apply contains_dom.
  - rewrite <- (length_fmap user_address v), <- size_dom.
    apply submseteq_length, NoDup_submseteq; [done|].
    intros x (r & -> & Hr)%list_elem_of_fmap. apply elem_of_elements. auto.
Qed.

Lemma daily_attendance_bounded_witness :
  (length [new_record Scenario.teacher Scenario.student "2024-01-10" true 103]
   ≤ size (users (Scenario.ledger Scenario.marked_day)))%nat.
Proof.
  assert (Hview : get_daily_attendance Scenario.deployer "2024-01-10"
                    Scenario.marked_day
                  = inr [new_record Scenario.teacher Scenario.student
                           "2024-01-10" true 103])
    by (vm_compute; reflexivity).
  exact (proj2 (proj2 (daily_attendance_bounded Scenario.deployer
                         Scenario.marked_day (Scenario.ledger Scenario.marked_day)
                         "2024-01-10" _ (proj1 (proj2 scenario_reachable))
                         (proj1 (proj2 scenario_ledgers)) Hview))).
Defined.

Lemma may_mark_mono s s' m u :
  users s ⊆ users s' → may_mark s m u = true → may_mark s' m u = true.
Proof.
  intros Hsub. unfold may_mark.
  rewrite !orb_true_iff, !is_admin_spec, !is_teacher_spec.
  intros [[Heq|(acct & Hacct & Ht)]|(acct & Hacct & Ht)]; [auto|left; right|right];
    exists acct; (split; [by eapply lookup_weaken|done]).
Qed.

Lemma fresh_sub_table s a :
  ledger_inv s → users s !! a = None → daily_attendance s !! a = None.
Proof.
  intros [[Hkeys _ _ _] _] Ha. apply not_elem_of_dom. rewrite <- Hkeys.
  by apply not_elem_of_dom.
Qed.

Lemma markers_allowed_reachable wenidi_addr (st : gmap N AttendanceSystem) a s :
  reachable wenidi_addr st → st !! a = Some s → markers_allowed s.
Proof.
  intros Hst. revert a s.
  apply (ledger_invariant wenidi_addr markers_allowed); [| | | |done].
  - intros a now u d r (ua & [<- <-]%lookup_insert_Some_empty & Hr)%by_account_Some.
    by rewrite lookup_empty in Hr.
  - intros s a n t now Hinv IH _ Ha u d r.
    rewrite by_account_registered by (by apply fresh_sub_table).
    intros Hacc%IH. eapply may_mark_mono; [|done]. simpl. by apply insert_subseteq.
  - intros s ua m u d p now _ IH Hm _ Hua Hd u' d' r.
    rewrite by_account_marked by done. case_decide as Hc.
    + destruct Hc as [-> ->]. by intros [= <-].
    + intros Hacc%IH. done.
  - intros s u d ua r v now _ IH Hua Hr _ u' d' r'.
    rewrite by_account_checked_out by done. case_decide as Hc.
    + destruct Hc as [-> ->]. intros [= <-]. simpl.
      apply (IH u d r). apply by_account_Some. eauto.
    + intros Hacc%IH. done.
Qed.

(** X13. Every record was marked by someone allowed to. On a deployed
    ledger the record [get_user_attendance] returns for an account and a
    date carries that account and that date, its subject is registered, and
    its marker is the subject itself or an account that is Admin or
    Teacher. *)
Theorem markers_authorized wenidi_addr (st : gmap N AttendanceSystem) u d r :
  reachable wenidi_addr st →
  get_user_attendance wenidi_addr u d st = inr r →
  user_address r = u ∧ date r = d
  ∧ is_user_registered wenidi_addr u st = inr true
  ∧ (marked_by r = u
     ∨ ∃ acct, get_user_info wenidi_addr (marked_by r) st = inr acct
               ∧ (user_type acct = USER_TYPE_ADMIN
                  ∨ user_type acct = USER_TYPE_TEACHER)).
Proof.
  intros Hst (s & Hs & Hacc)%get_user_attendance_inr.
  destruct (reachable_inv _ _ Hst _ _ Hs) as [_ [[Hkeys _ _ _] [Hsame Hdate _]]].
  destruct (proj1 (Hsame _ _ _) Hacc) as [Hu Hbd].
  pose proof (markers_allowed_reachable _ _ _ _ Hst Hs _ _ _ Hacc) as Hm.
  split_and!.
  - done.
  - by apply Hdate.
  - apply by_account_Some in Hacc as (ua & Hua & _).
    unfold is_user_registered, borrow_global, view.is_user_registered.
    rewrite Hs. f_equal. apply contains_dom. rewrite Hkeys.
    apply elem_of_dom. eauto.
  - unfold may_mark in Hm.
    rewrite !orb_true_iff, N.eqb_eq, is_admin_spec, is_teacher_spec in Hm.
    destruct Hm as [[Heq|(acct & Hacct & Ht)]|(acct & Hacct & Ht)]; [by left|..];
      right; exists acct; rewrite (get_user_info_eq _ _ _ _ Hs), Hacct; auto.
Qed.

Lemma markers_authorized_witness :
  marked_by (new_record Scenario.teacher Scenario.student "2024-01-10" true 103)
    = Scenario.student
  ∨ ∃ acct, get_user_info Scenario.deployer
              (marked_by (new_record Scenario.teacher Scenario.student
                            "2024-01-10" true 103)) Scenario.marked_day
            = inr acct
            ∧ (user_type acct = USER_TYPE_ADMIN
               ∨ user_type acct = USER_TYPE_TEACHER).
Proof.
  apply (markers_authorized Scenario.deployer Scenario.marked_day Scenario.student
           "2024-01-10"
           (new_record Scenario.teacher Scenario.student "2024-01-10" true 103)
           (proj1 (proj2 scenario_reachable))).
  vm_compute. reflexivity.
Defined.

Lemma reports_check_out e r t : reports e r → reports e (set_check_out_time t r).
Proof. done. Qed.

(** X14. The stream of marking events is a faithful log. In every ledger
    transactions can produce, each [AttendanceMarkedEvent] reports the
    record on file for its subject and date (same check-in time, presence
    flag and marker, and a timestamp equal to the check-in time), each
    record on file has its event, and no (subject, date) pair is reported
    twice. *)
Theorem marked_events_log wenidi_addr (st : gmap N AttendanceSystem) a s :
  reachable wenidi_addr st → st !! a = Some s → marked_events_wf s.
Proof.
  intros Hst. revert a s.
  apply (ledger_invariant wenidi_addr marked_events_wf); [| | | |done].
  - intros a now. split; simpl.
    + by intros e ?%elem_of_nil.
    + intros u d r (ua & [<- <-]%lookup_insert_Some_empty & Hr)%by_account_Some.
      by rewrite lookup_empty in Hr.
    + apply NoDup_nil_2.
  - intros s a n t now Hinv [Her Hre Hnd] _ Ha.
    assert (Hsame : ∀ u d, by_account (registered s a n t now) u d = by_account s u d)
      by (intros u d; apply by_account_registered; by apply fresh_sub_table).
    split; simpl.
    + intros e He. rewrite Hsame. by apply Her.
    + intros u d r. rewrite Hsame. apply Hre.
    + done.
  - intros s ua m u d p now _ [Her Hre Hnd] _ _ Hua Hd.
    set (rec := new_record m u d p now).
    set (ev := mkAttendanceMarkedEvent u d now p m now).
    assert (Hnone : by_account s u d = None) by (unfold by_account; by rewrite Hua).
    assert (Hev : reports ev rec) by done.
    split; simpl.
    + intros e [He|He%list_elem_of_singleton]%elem_of_app.
      * destruct (Her e He) as (r & Hr & Hrep). exists r. split; [|done].
        rewrite by_account_marked by done. rewrite decide_False; [done|].
        simpl. intros [Hu Hd']. congruence.
      * subst e. exists rec. split; [|done]. rewrite by_account_marked by done.
        by rewrite decide_True.
    + intros u' d' r. rewrite by_account_marked by done. case_decide as Hc.
      * intros [= <-]. exists ev. split; [|done]. apply elem_of_app. right.
        by apply list_elem_of_singleton.
      * intros (e & He & Hrep)%Hre. exists e. split; [|done].
        apply elem_of_app. by left.
    + rewrite fmap_app. apply NoDup_app. split_and!; [done| |apply NoDup_singleton].
      intros k (e & -> & He)%list_elem_of_fmap [= Hu Hd']%list_elem_of_singleton.
      destruct (Her e He) as (r & Hr & _). congruence.
  - intros s u d ua r v now _ [Her Hre Hnd] Hua Hr _.
    assert (Hacc : by_account s u d = Some r) by (apply by_account_Some; eauto).
    split; simpl.
    + intros e He. destruct (Her e He) as (r0 & Hr0 & Hrep).
      rewrite by_account_checked_out by done. case_decide as Hc.
      * destruct Hc as [Hu Hd']. rewrite Hu, Hd' in Hr0.
        assert (r0 = r) as -> by congruence.
        exists (set_check_out_time now r). split; [done|].
        by apply reports_check_out.
      * eauto.
    + intros u' d' r'. rewrite by_account_checked_out by done. case_decide as Hc.
      * destruct Hc as [-> ->]. intros [= <-].
        destruct (Hre _ _ _ Hacc) as (e & He & Hrep). exists e. split; [done|].
        by apply reports_check_out.
      * apply Hre.
    + done.
Qed.

Lemma marked_events_log_witness :
  NoDup ((λ e, (att_user_address e, att_date e))
           <$> attendance_marked_events (Scenario.ledger Scenario.checked)).
Proof.
  exact (event_once _ (marked_events_log Scenario.deployer Scenario.checked
                         Scenario.deployer (Scenario.ledger Scenario.checked)
                         (proj1 scenario_reachable)
                         (proj2 (proj2 scenario_ledgers)))).
Defined.

(** X15. The stream of registration events is a faithful log of the
    accounts but one. In every ledger transactions can produce, each
    [UserRegistrationEvent] carries the address, name, role and
    registration time of the account on file for its address, each account
    other than the administrator has its event, no address is reported
    twice, and the stream is one shorter than the account store: the
    administrator's account, which [initialize] creates, has no event. *)
Theorem registration_events_log wenidi_addr (st : gmap N AttendanceSystem) a s :
  reachable wenidi_addr st → st !! a = Some s → registration_events_wf s.
Proof.
  intros Hst. revert a s.
  apply (ledger_invariant wenidi_addr registration_events_wf); [| | | |done].
  - intros a now. split; simpl.
    + by intros e ?%elem_of_nil.
    + intros b u [<- <-]%lookup_insert_Some_empty Hne. done.
    + apply NoDup_nil_2.
    + rewrite map_size_insert_None by apply lookup_empty.
      by rewrite map_size_empty.
  - intros s a n t now [[_ _ _ [adm Hadm]] _] [Hea Hae Hnd Hcount] _ Ha.
    assert (Hne : a ≠ admin s) by congruence.
    split; simpl.
    + intros e [He|He%list_elem_of_singleton]%elem_of_app.
      * destruct (Hea e He) as (u & Hu & -> & Hne'). exists u.
        split_and!; [|done..]. rewrite lookup_insert_ne; [done|]. congruence.
      * subst e. exists (mkUser a n t now). simpl.
        split_and!; [apply lookup_insert_eq|done|done].
    + intros b u [[<- <-]|[_ Hu]]%lookup_insert_Some Hne'; apply elem_of_app.
      * right. by apply list_elem_of_singleton.
      * left. by apply (Hae b).
    + rewrite fmap_app. apply NoDup_app. split_and!; [done| |apply NoDup_singleton].
      intros b (e & -> & He)%list_elem_of_fmap Heq%list_elem_of_singleton.
      simpl in Heq. destruct (Hea e He) as (u & Hu & _). congruence.
    + rewrite length_app, map_size_insert_None by done. simpl. lia.
  - intros s ua m u d p now _ [Hea Hae Hnd Hcount] _ _ _ _. by split.
  - intros s u d ua r v now _ [Hea Hae Hnd Hcount] _ _ _. by split.
Qed.

Lemma registration_events_log_witness :
  (length (user_registration_events (Scenario.ledger Scenario.checked)) + 1)%nat
  = size (users (Scenario.ledger Scenario.checked)).
Proof.
  exact (events_count _ (registration_events_log Scenario.deployer Scenario.checked
                           Scenario.deployer (Scenario.ledger Scenario.checked)
                           (proj1 scenario_reachable)
                           (proj2 (proj2 scenario_ledgers)))).
Defined.

Lemma execute_without_deployer wenidi_addr (st : gmap N AttendanceSystem) now tx :
  st !! wenidi_addr = None → tx ≠ Initialize wenidi_addr →
  execute wenidi_addr now tx st !! wenidi_addr = None.
Proof.
  intros Hnone Htx. unfold execute.
  destruct tx as [a|a n t|m u d p|u d]; simpl;
    try (unfold borrow_global_mut; by rewrite Hnone).
  rewrite initialize_eq. destruct (st !! a); [done|].
  rewrite lookup_insert_ne; [done|]. congruence.
Qed.

(** X16. Only the deployment address can bring the ledger into being.
    While no ledger is published under [@wenidi_addr], every entry function
    but [initialize] and every view aborts on the missing resource, and no
    run of transactions without an [initialize] signed by [@wenidi_addr]
    changes that, whoever else initializes. That [initialize] itself goes
    through. *)
Theorem ledger_needs_deployer wenidi_addr (st : gmap N AttendanceSystem) txs :
  st !! wenidi_addr = None →
  (∀ now, (now, Initialize wenidi_addr) ∉ txs) →
  execute_all wenidi_addr txs st !! wenidi_addr = None
  ∧ (∀ now tx, (∀ a, tx ≠ Initialize a) →
       run wenidi_addr now tx (execute_all wenidi_addr txs st) = inl MISSING_DATA)
  ∧ (∀ a d caller,
       get_user_info wenidi_addr a (execute_all wenidi_addr txs st)
         = inl MISSING_DATA
       ∧ get_user_attendance wenidi_addr a d (execute_all wenidi_addr txs st)
         = inl MISSING_DATA
       ∧ get_daily_attendance wenidi_addr d (execute_all wenidi_addr txs st)
         = inl MISSING_DATA
       ∧ get_all_attendance_by_date wenidi_addr d caller
           (execute_all wenidi_addr txs st) = inl MISSING_DATA
       ∧ is_user_registered wenidi_addr a (execute_all wenidi_addr txs st)
         = inl MISSING_DATA
       ∧ get_admin_address wenidi_addr (execute_all wenidi_addr txs st)
         = inl MISSING_DATA)
  ∧ (∀ now, run wenidi_addr now (Initialize wenidi_addr)
              (execute_all wenidi_addr txs st)
            = inr (<[wenidi_addr := genesis wenidi_addr now]>
                     (execute_all wenidi_addr txs st))).
Proof.
  intros Hnone Hno.
  assert (Hlater : execute_all wenidi_addr txs st !! wenidi_addr = None).
  { revert st Hnone. induction txs as [|[now tx] txs IH]; intros st Hnone; [done|].
    simpl. apply IH.
    - intros now' Hin. apply (Hno now'). by apply list_elem_of_further.
    - apply execute_without_deployer; [done|]. intros ->.
      apply (Hno now). apply list_elem_of_here. }
  split_and!.
  - done.
  - intros now tx Htx. destruct tx as [a|a n t|m u d p|u d]; simpl;
      try (unfold borrow_global_mut; by rewrite Hlater).
    by destruct (Htx a).
  - intros a d caller.
    unfold get_user_info, get_user_attendance, get_daily_attendance,
      get_all_attendance_by_date, is_user_registered, get_admin_address,
      borrow_global.
    by rewrite Hlater.
  - intros now. simpl. by rewrite initialize_eq, Hlater.
Qed.

Lemma ledger_needs_deployer_witness :
  get_admin_address Scenario.deployer
    (execute_all Scenario.deployer
       [(100, Initialize Scenario.stranger);
        (101, RegisterUser Scenario.student "Alice" USER_TYPE_STUDENT)] ∅)
  = inl MISSING_DATA.
Proof.
  assert (Hnone : (∅ : gmap N AttendanceSystem) !! Scenario.deployer = None)
    by apply lookup_empty.
  refine (proj2 (proj2 (proj2 (proj2 (proj2 (proj1 (proj2 (proj2
            (ledger_needs_deployer Scenario.deployer ∅ _ Hnone _)))
            Scenario.deployer "2024-01-10" Scenario.deployer)))))).
  intros now Hin. repeat (apply elem_of_cons in Hin as [[=]|Hin]).
  by apply elem_of_nil in Hin.
Defined.

(** X17. The client's two role tables are inverse to each other, and the
    wallet context can name every account. [typeMap] sends a number to a
    name exactly when [userTypeMap] sends the name to the number; and for
    every account [get_user_info] returns on a deployed ledger, [typeMap]
    has an entry for its [user_type], so the role shown is never
    undefined. *)
Theorem client_type_maps wenidi_addr (st : gmap N AttendanceSystem) a acct :
  reachable wenidi_addr st →
  get_user_info wenidi_addr a st = inr acct →
  (∀ ty t, client.userTypeMap !! ty = Some t ↔ client.typeMap !! t = Some ty)
  ∧ is_Some (client.typeMap !! user_type acct)
  ∧ (client.typeMap !! user_type acct = Some "admin" ↔ a = wenidi_addr).
Proof.
  intros Hst Hview.
  assert (Hinv : ∀ ty t, client.userTypeMap !! ty = Some t
                         ↔ client.typeMap !! t = Some ty).
  { intros ty t. unfold client.userTypeMap, client.typeMap.
    rewrite !lookup_insert_Some, !lookup_empty. split.
    - intros [[<- <-]|[? [[<- <-]|[? [[<- <-]|[? [=]]]]]]]; by auto 10.
    - intros [[<- <-]|[? [[<- <-]|[? [[<- <-]|[? [=]]]]]]]; by auto 10. }
  assert (Hview' := Hview).
  destruct (view_inr_ledger _ _ _ _ Hview) as (s & Hs & _).
  rewrite (get_user_info_eq _ _ _ _ Hs) in Hview.
  destruct (users s !! a) as [acct'|] eqn:Ha; simpl in Hview; [|done].
  injection Hview as ->.
  pose proof (roles_wf_reachable _ _ _ _ Hst Hs a acct Ha) as Hrole.
  destruct (reachable_inv _ _ Hst _ _ Hs) as [Hadm [[_ _ Honly _] _]].
  split_and!.
  - done.
  - destruct Hrole as [-> | [-> | ->]]; by eexists.
  - rewrite <- Hinv, <- Hadm, <- (Honly _ _ Ha).
    unfold client.userTypeMap. rewrite !lookup_insert_Some, !lookup_empty.
    split.
    + intros [[[=] _]|[_ [[[=] _]|[_ [[_ <-]|[_ [=]]]]]]]. done.
    + intros ->. right. split; [done|]. right. split; [done|]. by left.
Qed.

Lemma client_type_maps_witness :
  is_Some (client.typeMap
             !! user_type (mkUser Scenario.teacher "Bob" USER_TYPE_TEACHER 102)).
Proof.
  refine (proj1 (proj2 (client_type_maps Scenario.deployer Scenario.checked
                          Scenario.teacher _ (proj1 scenario_reachable) _))).
  vm_compute. reflexivity.
Defined.

(** X18. Registering through the client. For a role name [userTypeMap]
    has, [registerUser] submits [register_user] with the mapped number. On
    a deployed ledger the name "admin" is always rejected with
    [E_INVALID_USER_TYPE]; and when the transaction returns, the role the
    wallet context reads back through [get_user_info] and [typeMap] is the
    name that was submitted. *)
Theorem client_register_user wenidi_addr (st : gmap N AttendanceSystem) ty t a n now :
  is_Some (st !! wenidi_addr) →
  client.userTypeMap !! ty = Some t →
  (ty = "admin" →
     run wenidi_addr now (RegisterUser a n t) st = inl (Code E_INVALID_USER_TYPE))
  ∧ (∀ st', run wenidi_addr now (RegisterUser a n t) st = inr st' →
       (ty = "student" ∨ ty = "teacher")
       ∧ ∃ acct, get_user_info wenidi_addr a st' = inr acct
                 ∧ name acct = n
                 ∧ client.typeMap !! user_type acct = Some ty).
Proof.
  intros [s Hs] Hty.
  unfold client.userTypeMap in Hty.
  rewrite !lookup_insert_Some, !lookup_empty in Hty.
  split.
  - intros ->. destruct Hty as [[[=] _]|[_ [[[=] _]|[_ [[_ <-]|[_ [=]]]]]]].
    simpl. by rewrite (borrow_global_mut_Some _ _ _ _ Hs), register_user_eq.
  - intros st' (s0 & Hs0 & Ht & Ha & ->)%run_cases.
    assert (Hs' : <[wenidi_addr := registered s0 a n t now]> st !! wenidi_addr
                  = Some (registered s0 a n t now)) by apply lookup_insert_eq.
    assert (Hinfo : get_user_info wenidi_addr a
                      (<[wenidi_addr := registered s0 a n t now]> st)
                    = inr (mkUser a n t now)).
    { rewrite (get_user_info_eq _ _ _ _ Hs'). simpl. by rewrite lookup_insert_eq. }
    destruct Hty as [[<- <-]|[_ [[<- <-]|[_ [[<- <-]|[_ [=]]]]]]].
    + split; [by left|]. by exists (mkUser a n 1 now).
    + split; [by right|]. by exists (mkUser a n 2 now).
    + by destruct Ht.
Qed.

Lemma client_register_user_witness :
  run Scenario.deployer 103 (RegisterUser Scenario.stranger "Eve" 3)
    Scenario.with_teacher = inl (Code E_INVALID_USER_TYPE).
Proof.
  refine (proj1 (client_register_user Scenario.deployer Scenario.with_teacher
                   "admin" 3 Scenario.stranger "Eve" 103 _ _) eq_refl).
  - rewrite (proj1 scenario_ledgers). by eexists.
  - vm_compute. reflexivity.
Defined.
